(** * Reward Ledger Engine: persistent store, state migration, wallet
      authorization and token refill.

    A shallow embedding of the ledger's transactional command executor
    ([LedgerDatabase]), of the one-shot state migration
    ([StateMigrationV10]), of the custodian wallet authorizer and of the
    refill coordinator's single-flight guard, with the properties the
    specification states about them. *)

From Stdlib Require Import ZArith Lia.
From stdpp Require Import base option list strings gmap.

Set Warnings "-register-all,-clear-no-such-hyp".

Open Scope string_scope.
Open Scope list_scope.
Open Scope Z_scope.

(* ===================================================================== *)
(** ** The command/transaction wire types *)
(* ===================================================================== *)

Module mojom.

(** Modelled from the spec: the interface file that declares
    [DBCommandResponse::Status] is not among the sources; section 6 lists
    the statuses in this order, and a freshly built response carries the
    first one. *)
Inductive Status :=
| RESPONSE_OK
| INITIALIZATION_ERROR
| TRANSACTION_ERROR
| COMMAND_ERROR.

(** Modelled from the spec: the command types of section 3, as
    [RunTransaction]'s switch enumerates them. *)
Inductive Type_ :=
| INITIALIZE
| READ
| EXECUTE
| RUN
| MIGRATE
| VACUUM
| CLOSE.

(** Modelled from the spec: binding value tags of section 6, one per case
    of [HandleBinding].  A double is kept as its 64-bit pattern: the store
    only passes it through. *)
Inductive DBValue :=
| STRING_VALUE (string_value : string)
| INT_VALUE (int_value : Z)
| INT64_VALUE (int64_value : Z)
| DOUBLE_VALUE (double_value : Z)
| BOOL_VALUE (bool_value : bool)
| NULL_VALUE.

(** Modelled from the spec: record binding type tags (the value tags minus
    NULL), one per case of [CreateRecord]. *)
Inductive RecordBindingType :=
| STRING_TYPE
| INT_TYPE
| INT64_TYPE
| DOUBLE_TYPE
| BOOL_TYPE.

(** Modelled from the spec: the command transaction wire shape of section
    6: a transaction carries its two version numbers and its commands, a
    command its type, its text, its bindings and the types of the columns
    of its records. *)
Record DBCommandBinding := {
  index : Z;
  value : DBValue
}.

Record DBCommand := {
  type : Type_;
  command : string;
  bindings : list DBCommandBinding;
  record_bindings : list RecordBindingType
}.

Record DBTransaction := {
  version : Z;
  compatible_version : Z;
  commands : list DBCommand
}.

(** Modelled from the spec: the response shape of section 6: a status and,
    when there is one, a result that is a single value or a list of
    records. *)
Record DBRecord := { fields : list DBValue }.

Inductive DBCommandResult :=
| result_value (v : DBValue)
| result_records (rs : list DBRecord).

Record DBCommandResponse := {
  status : Status;
  result : option DBCommandResult
}.

(** [DBCommandResponse::New()]: no result, the zero status. *)
Definition DBCommandResponse_New : DBCommandResponse :=
  {| status := RESPONSE_OK; result := None |}.

Definition set_status (s : Status) (r : DBCommandResponse) : DBCommandResponse :=
  {| status := s; result := result r |}.

Definition set_result (x : DBCommandResult) (r : DBCommandResponse) : DBCommandResponse :=
  {| status := status r; result := Some x |}.

#[global] Instance Status_eq_dec : EqDecision Status.
Proof. solve_decision. Defined.

#[global] Instance Type_eq_dec : EqDecision Type_.
Proof. solve_decision. Defined.

Definition is_ok (s : Status) : bool :=
  match s with RESPONSE_OK => true | _ => false end.

Definition is_close (c : DBCommand) : bool :=
  match type c with CLOSE => true | _ => false end.

Definition is_vacuum (c : DBCommand) : bool :=
  match type c with VACUUM => true | _ => false end.

End mojom.
Import mojom.

(* ===================================================================== *)
(** ** The SQL engine the store drives *)
(* ===================================================================== *)

(** The connection [db_] and the meta table belong to the embedding
    browser's [sql] library.  The contents of a database are its meta table
    (absent until created; a key/value table of integers) and the caller's
    own tables, about which nothing is assumed. *)
Record Contents (Tables : Type) := {
  meta : option (gmap string Z);
  tables : Tables
}.
Arguments meta {Tables} _.
Arguments tables {Tables} _.

(** One fetched row of a statement, through the column accessors
    [CreateRecord] uses. *)
Record Row := {
  ColumnString : nat -> string;
  ColumnInt : nat -> Z;
  ColumnInt64 : nat -> Z;
  ColumnDouble : nat -> Z;
  ColumnBool : nat -> bool
}.

(** What the environment decides during one call of [RunTransaction]:
    whether the file opens, the transaction begins, the meta table
    initialises and the transaction commits. *)
Record Io := {
  Open_succeeds : bool;
  Begin_succeeds : bool;
  MetaInit_succeeds : bool;
  Commit_succeeds : bool
}.

(** The calls the store makes on the connection, the transaction object and
    the meta table, and the errors it logs (verbosity 0), in order. *)
Inductive Event :=
| db_Open (ok : bool)
| db_Close
| meta_Reset
| committer_Begin (ok : bool)
| committer_Rollback
| committer_Commit (ok : bool)
| meta_DoesTableExist (found : bool)
| meta_Init (version compatible_version : Z) (ok : bool)
| meta_GetVersionNumber (v : Z)
| meta_SetVersionNumber (v : Z)
| meta_SetCompatibleVersionNumber (v : Z)
| db_Execute (sql : string) (ok : bool)
| statement_Run (sql : string) (bs : list DBCommandBinding) (ok : bool)
| statement_Step (sql : string) (bs : list DBCommandBinding) (rows : nat)
| BLOG (message : string).

Definition kVersionKey : string := "version".
Definition kCompatibleVersionKey : string := "last_compatible_version".

(** What the store needs from the engine: running a statement string
    ([db_.Execute]), running a prepared statement with its bindings
    ([Statement::Run]), stepping one through its rows ([Statement::Step]),
    and what the connection sees once a COMMIT has failed (given the
    contents at BEGIN and the current ones).  Each may change the contents
    whether it succeeds or not. *)
Record Engine (Tables : Type) := {
  sql_Execute : string -> Contents Tables -> bool * Contents Tables;
  sql_Run : string -> list DBCommandBinding -> Contents Tables -> bool * Contents Tables;
  sql_Step : string -> list DBCommandBinding -> Contents Tables -> list Row * Contents Tables;
  sql_failed_commit : Contents Tables -> Contents Tables -> Contents Tables
}.
Arguments sql_Execute {Tables} _ _ _.
Arguments sql_Run {Tables} _ _ _ _.
Arguments sql_Step {Tables} _ _ _ _.
Arguments sql_failed_commit {Tables} _ _ _.

(* ===================================================================== *)
(** ** The persistent store: [LedgerDatabase] *)
(* ===================================================================== *)

Module ledger.

(** The fields of [LedgerDatabase]: the connection (open or not, and the
    contents it sees), the initialised flag and whether the memory
    pressure listener has been created. *)
Record LedgerDatabase (Tables : Type) := {
  db_is_open : bool;
  db_ : Contents Tables;
  initialized_ : bool;
  memory_pressure_listener_ : bool
}.
Arguments db_is_open {Tables} _.
Arguments db_ {Tables} _.
Arguments initialized_ {Tables} _.
Arguments memory_pressure_listener_ {Tables} _.

(** The locals of [RunTransaction] that its loop updates. *)
Record Frame (Tables : Type) := {
  store : LedgerDatabase Tables;
  command_response : DBCommandResponse;
  vacuum_requested : bool
}.
Arguments store {Tables} _.
Arguments command_response {Tables} _.
Arguments vacuum_requested {Tables} _.

Section Store.
Context {Tables : Type}.
Variable engine : Engine Tables.

Abbreviation Contents := (Contents Tables).
Abbreviation LedgerDatabase := (LedgerDatabase Tables).
Abbreviation Frame := (Frame Tables).

Definition with_db (c : Contents) (st : LedgerDatabase) : LedgerDatabase :=
  {| db_is_open := db_is_open st; db_ := c;
     initialized_ := initialized_ st;
     memory_pressure_listener_ := memory_pressure_listener_ st |}.

Definition with_open (st : LedgerDatabase) : LedgerDatabase :=
  {| db_is_open := true; db_ := db_ st;
     initialized_ := initialized_ st;
     memory_pressure_listener_ := memory_pressure_listener_ st |}.

(** *** The meta table *)

Definition MetaTable_DoesTableExist (c : Contents) : bool :=
  match meta c with Some _ => true | None => false end.

Definition MetaTable_GetVersionNumber (c : Contents) : Z :=
  match meta c with
  | Some rows => default 0 (rows !! kVersionKey)
  | None => 0
  end.

Definition MetaTable_GetCompatibleVersionNumber (c : Contents) : Z :=
  match meta c with
  | Some rows => default 0 (rows !! kCompatibleVersionKey)
  | None => 0
  end.

(** INSERT OR REPLACE of one row; without the table the statement fails
    and nothing is written (the callers ignore the outcome). *)
Definition MetaTable_SetValue (key : string) (v : Z) (c : Contents) : Contents :=
  match meta c with
  | Some rows => {| meta := Some (<[key := v]> rows); tables := tables c |}
  | None => c
  end.

Definition MetaTable_SetVersionNumber (v : Z) : Contents -> Contents :=
  MetaTable_SetValue kVersionKey v.

Definition MetaTable_SetCompatibleVersionNumber (v : Z) : Contents -> Contents :=
  MetaTable_SetValue kCompatibleVersionKey v.

(** [MetaTable::Init]: creates the table with the two version rows when
    it is missing and leaves an existing table alone.  A failed
    initialisation is taken to have written nothing; the only caller
    rolls back right after it. *)
Definition MetaTable_Init (ok : bool) (version compatible_version : Z)
    (c : Contents) : bool * Contents :=
  if ok then
    if MetaTable_DoesTableExist c then (true, c)
    else
      let created := {| meta := Some ∅; tables := tables c |} in
      (true, MetaTable_SetCompatibleVersionNumber compatible_version
               (MetaTable_SetVersionNumber version created))
  else (false, c).

(** *** Statements *)

(** [HandleBinding]: one [Bind*] call per value tag, at the binding's
    index.  A statement under construction is the list of the bindings
    made so far. *)
Definition HandleBinding (statement : list DBCommandBinding)
    (binding : DBCommandBinding) : list DBCommandBinding :=
  match value binding with
  | STRING_VALUE _ | INT_VALUE _ | INT64_VALUE _
  | DOUBLE_VALUE _ | BOOL_VALUE _ | NULL_VALUE =>
      statement ++ [binding]
  end.

Definition bind_all (bs : list DBCommandBinding) : list DBCommandBinding :=
  foldl HandleBinding [] bs.

Definition CreateRecord (statement : Row) (bindings : list RecordBindingType)
    : DBRecord :=
  {| fields :=
       imap (fun column binding =>
               match binding with
               | STRING_TYPE => STRING_VALUE (ColumnString statement column)
               | INT_TYPE => INT_VALUE (ColumnInt statement column)
               | INT64_TYPE => INT64_VALUE (ColumnInt64 statement column)
               | DOUBLE_TYPE => DOUBLE_VALUE (ColumnDouble statement column)
               | BOOL_TYPE => BOOL_VALUE (ColumnBool statement column)
               end) bindings |}.

(** *** The commands *)

Definition CloseDatabase (st : LedgerDatabase) : LedgerDatabase * list Event :=
  ({| db_is_open := false; db_ := db_ st;
      initialized_ := false;
      memory_pressure_listener_ := memory_pressure_listener_ st |},
   [db_Close; meta_Reset]).

Definition Initialize (io : Io) (version compatible_version : Z)
    (response : DBCommandResponse) (st : LedgerDatabase)
    : Status * DBCommandResponse * LedgerDatabase * list Event :=
  let answer (table_version : Z) :=
    set_result (result_value (INT_VALUE table_version)) response in
  if initialized_ st then
    let table_version := MetaTable_GetVersionNumber (db_ st) in
    (RESPONSE_OK, answer table_version,
     {| db_is_open := db_is_open st; db_ := db_ st;
        initialized_ := true; memory_pressure_listener_ := true |},
     [meta_GetVersionNumber table_version])
  else
    let table_exists := MetaTable_DoesTableExist (db_ st) in
    let '(ok, c) :=
      MetaTable_Init (MetaInit_succeeds io) version compatible_version (db_ st) in
    if ok then
      let table_version :=
        if table_exists then MetaTable_GetVersionNumber c else 0 in
      (RESPONSE_OK, answer table_version,
       {| db_is_open := db_is_open st; db_ := c;
          initialized_ := true; memory_pressure_listener_ := true |},
       [meta_DoesTableExist table_exists;
        meta_Init version compatible_version true]
       ++ (if table_exists then [meta_GetVersionNumber table_version] else []))
    else
      (INITIALIZATION_ERROR, response, with_db c st,
       [meta_DoesTableExist table_exists;
        meta_Init version compatible_version false]).

Definition Execute (cmd : DBCommand) (st : LedgerDatabase)
    : Status * LedgerDatabase * list Event :=
  if initialized_ st then
    let '(ok, c) := sql_Execute engine (command cmd) (db_ st) in
    if ok then (RESPONSE_OK, with_db c st, [db_Execute (command cmd) true])
    else (COMMAND_ERROR, with_db c st,
          [db_Execute (command cmd) false; BLOG "DB Execute error"])
  else (INITIALIZATION_ERROR, st, []).

Definition Run (cmd : DBCommand) (st : LedgerDatabase)
    : Status * LedgerDatabase * list Event :=
  if initialized_ st then
    let statement := bind_all (bindings cmd) in
    let '(ok, c) := sql_Run engine (command cmd) statement (db_ st) in
    if ok then
      (RESPONSE_OK, with_db c st, [statement_Run (command cmd) statement true])
    else
      (COMMAND_ERROR, with_db c st,
       [statement_Run (command cmd) statement false; BLOG "DB Run error"])
  else (INITIALIZATION_ERROR, st, []).

Definition Read (cmd : DBCommand) (response : DBCommandResponse)
    (st : LedgerDatabase)
    : Status * DBCommandResponse * LedgerDatabase * list Event :=
  if initialized_ st then
    let statement := bind_all (bindings cmd) in
    let '(rows, c) := sql_Step engine (command cmd) statement (db_ st) in
    let records := (fun row => CreateRecord row (record_bindings cmd)) <$> rows in
    (RESPONSE_OK, set_result (result_records records) response, with_db c st,
     [statement_Step (command cmd) statement (length rows)])
  else (INITIALIZATION_ERROR, response, st, []).

Definition Migrate (version compatible_version : Z) (st : LedgerDatabase)
    : Status * LedgerDatabase * list Event :=
  if initialized_ st then
    (RESPONSE_OK,
     with_db (MetaTable_SetCompatibleVersionNumber compatible_version
                (MetaTable_SetVersionNumber version (db_ st))) st,
     [meta_SetVersionNumber version;
      meta_SetCompatibleVersionNumber compatible_version])
  else (INITIALIZATION_ERROR, st, []).

(** *** [RunTransaction] *)

(** The body of the loop for one command: the switch on the command
    type.  The CLOSE case is the one marked unreachable, which in a
    release build goes on to COMMAND_ERROR. *)
Definition run_command (io : Io) (transaction : DBTransaction)
    (cmd : DBCommand) (f : Frame) : Status * Frame * list Event :=
  match type cmd with
  | INITIALIZE =>
      let '(status, response, st, calls) :=
        Initialize io (version transaction) (compatible_version transaction)
          (command_response f) (store f) in
      (status,
       {| store := st; command_response := response;
          vacuum_requested := vacuum_requested f |}, calls)
  | READ =>
      let '(status, response, st, calls) :=
        Read cmd (command_response f) (store f) in
      (status,
       {| store := st; command_response := response;
          vacuum_requested := vacuum_requested f |}, calls)
  | EXECUTE =>
      let '(status, st, calls) := Execute cmd (store f) in
      (status,
       {| store := st; command_response := command_response f;
          vacuum_requested := vacuum_requested f |}, calls)
  | RUN =>
      let '(status, st, calls) := Run cmd (store f) in
      (status,
       {| store := st; command_response := command_response f;
          vacuum_requested := vacuum_requested f |}, calls)
  | MIGRATE =>
      let '(status, st, calls) :=
        Migrate (version transaction) (compatible_version transaction) (store f) in
      (status,
       {| store := st; command_response := command_response f;
          vacuum_requested := vacuum_requested f |}, calls)
  | VACUUM =>
      (RESPONSE_OK,
       {| store := store f; command_response := command_response f;
          vacuum_requested := true |}, [])
  | CLOSE =>
      (COMMAND_ERROR, f, [])
  end.

(** The loop over the commands: it stops at the first command whose
    status is not RESPONSE_OK and hands that status back; RESPONSE_OK
    means every command ran. *)
Fixpoint run_commands (io : Io) (transaction : DBTransaction)
    (cmds : list DBCommand) (f : Frame) : Status * Frame * list Event :=
  match cmds with
  | [] => (RESPONSE_OK, f, [])
  | cmd :: rest =>
      let '(status, f1, calls) := run_command io transaction cmd f in
      if is_ok status then
        let '(status', f2, calls') := run_commands io transaction rest f1 in
        (status', f2, calls ++ calls')
      else (status, f1, calls)
  end.

Definition is_sole_close (cmds : list DBCommand) : bool :=
  match cmds with
  | [cmd] => is_close cmd
  | _ => false
  end.

(** The loop's frame before the first command: the connection is open, the
    response is new and no vacuum has been asked for. *)
Definition first_frame (st : LedgerDatabase) : Frame :=
  {| store := with_open st; command_response := DBCommandResponse_New;
     vacuum_requested := false |}.

(** The calls made from inside the loop, as opposed to those that open or
    close the connection and those on the transaction object. *)
Definition inside (e : Event) : bool :=
  match e with
  | db_Open _ | db_Close | meta_Reset
  | committer_Begin _ | committer_Rollback | committer_Commit _ => false
  | _ => true
  end.

(** The same transaction with other commands. *)
Definition with_commands (cmds : list DBCommand) (transaction : DBTransaction)
    : DBTransaction :=
  {| version := version transaction;
     compatible_version := compatible_version transaction;
     commands := cmds |}.

Definition opening (st : LedgerDatabase) : list Event :=
  if db_is_open st then [] else [db_Open true].

Definition RunTransaction (io : Io) (transaction : DBTransaction)
    (st : LedgerDatabase) : DBCommandResponse * LedgerDatabase * list Event :=
  let response := DBCommandResponse_New in
  if negb (db_is_open st) && negb (Open_succeeds io) then
    (set_status INITIALIZATION_ERROR response, st, [db_Open false])
  else if is_sole_close (commands transaction) then
    let '(closed, calls) := CloseDatabase (with_open st) in
    (set_status RESPONSE_OK response, closed, opening st ++ calls)
  else if negb (Begin_succeeds io) then
    (set_status TRANSACTION_ERROR response, with_open st,
     opening st ++ [committer_Begin false])
  else
    let snapshot := db_ st in
    let '(status, f, calls) :=
      run_commands io transaction (commands transaction) (first_frame st) in
    if negb (is_ok status) then
      (set_status status (command_response f),
       with_db snapshot (store f),
       opening st ++ [committer_Begin true] ++ calls ++ [committer_Rollback])
    else if negb (Commit_succeeds io) then
      (set_status TRANSACTION_ERROR (command_response f),
       with_db (sql_failed_commit engine snapshot (db_ (store f))) (store f),
       opening st ++ [committer_Begin true] ++ calls ++ [committer_Commit false])
    else if vacuum_requested f then
      let '(ok, c) := sql_Execute engine "VACUUM" (db_ (store f)) in
      (command_response f, with_db c (store f),
       opening st ++ [committer_Begin true] ++ calls
       ++ [committer_Commit true; db_Execute "VACUUM" ok]
       ++ (if ok then [] else [BLOG "Error executing VACUUM"]))
    else
      (command_response f, store f,
       opening st ++ [committer_Begin true] ++ calls ++ [committer_Commit true]).

(** A sequence of calls of [RunTransaction], each with what the
    environment decides during it. *)
Fixpoint RunTransactions (calls : list (Io * DBTransaction))
    (st : LedgerDatabase) : LedgerDatabase :=
  match calls with
  | [] => st
  | (io, transaction) :: rest =>
      RunTransactions rest (RunTransaction io transaction st).1.2
  end.

End Store.

End ledger.

(* ===================================================================== *)
(** ** The state migrator: [StateMigrationV10] *)
(* ===================================================================== *)

Module state.

(** Modelled from the spec: [type::Result] is declared outside the sources;
    these are the members the sources and sections 4.2 and 7 use. *)
Inductive Result :=
| LEDGER_OK
| LEDGER_ERROR
| NOT_FOUND.

#[global] Instance Result_eq_dec : EqDecision Result.
Proof. solve_decision. Defined.

(** A parsed JSON value ([base::Value]); a dictionary is searched by key
    from the front. *)
Inductive Value :=
| NONE
| BOOLEAN (b : bool)
| INTEGER (i : Z)
| DOUBLE (bits : Z)
| STRING (s : string)
| LIST (items : list Value)
| DICTIONARY (entries : list (string * Value)).

Definition is_dict (v : Value) : bool :=
  match v with DICTIONARY _ => true | _ => false end.

Fixpoint find_entry (key : string) (entries : list (string * Value)) : option Value :=
  match entries with
  | [] => None
  | (k, v) :: rest => if decide (k = key) then Some v else find_entry key rest
  end.

(** [Value::FindStringKey]: the string stored under the key, if the value is
    a dictionary that has the key and holds a string there. *)
Definition FindStringKey (key : string) (v : Value) : option string :=
  match v with
  | DICTIONARY entries =>
      match find_entry key entries with
      | Some (STRING s) => Some s
      | _ => None
      end
  | _ => None
  end.

(** Modelled from the spec: the rewards wallet of section 3 (the structure
    is declared outside the sources). *)
Record RewardsWallet := {
  payment_id : string;
  recovery_seed : string
}.

(** What the migration calls and does not own: the JSON reader and the
    base64 decoder of the base library, the user-key decryption of the
    preference value, and [RewardsWalletStore::SaveNew], which reports
    whether the wallet was written to the wallet table [Table]. *)
Record Collaborators (Table : Type) := {
  JSONReader_Read : string -> option Value;
  Base64Decode : string -> option string;
  Base64DecryptString : string -> option string;
  SaveNew : string -> string -> Table -> bool * Table
}.
Arguments JSONReader_Read {Table} _ _.
Arguments Base64Decode {Table} _ _.
Arguments Base64DecryptString {Table} _ _.
Arguments SaveNew {Table} _ _ _ _.

(** What one run of the migration leaves behind: the results its callback
    was invoked with, the wallet table and the messages logged. *)
Record Outcome (Table : Type) := {
  callback : list Result;
  wallet_table : Table;
  logged : list string
}.
Arguments callback {Table} _.
Arguments wallet_table {Table} _.
Arguments logged {Table} _.

Section StateMigrationV10.
Context {Table : Type}.
Variable ledger_ : Collaborators Table.

Definition ParseWalletJSON (data : string) : option RewardsWallet :=
  match JSONReader_Read ledger_ data with
  | None => None
  | Some root =>
      if negb (is_dict root) then None
      else
        match FindStringKey "payment_id" root with
        | None => None
        | Some payment_id =>
            match FindStringKey "recovery_seed" root with
            | None => None
            | Some seed =>
                match Base64Decode ledger_ seed with
                | None => None
                | Some decoded_seed =>
                    Some {| payment_id := payment_id;
                            recovery_seed := decoded_seed |}
                end
            end
        end
  end.

(** [Migrate], given the value of the legacy preference [kWalletBrave] and
    the wallet table.  [on_saved] logs and answers LEDGER_OK whatever
    [success] is. *)
Definition on_saved (success : bool) (table : Table) : Outcome Table :=
  {| callback := [LEDGER_OK];
     wallet_table := table;
     logged := ["Error migrating Rewards wallet to database"] |}.

Definition Migrate (pref_data : string) (table : Table) : Outcome Table :=
  if decide (pref_data = "") then
    {| callback := [LEDGER_OK]; wallet_table := table; logged := [] |}
  else
    match Base64DecryptString ledger_ pref_data with
    | None =>
        {| callback := [LEDGER_OK]; wallet_table := table;
           logged := ["Rewards wallet data could not be decrypted from user preferences"] |}
    | Some json =>
        match ParseWalletJSON json with
        | None =>
            {| callback := [LEDGER_OK]; wallet_table := table;
               logged := ["Rewards wallet could not be parsed from user preferences"] |}
        | Some result =>
            let '(success, saved) :=
              SaveNew ledger_ (payment_id result) (recovery_seed result) table in
            on_saved success saved
        end
    end.

End StateMigrationV10.

End state.

(* ===================================================================== *)
(** ** The custodian wallet authorizer *)
(* ===================================================================== *)

Module uphold.
Import state.

(** Modelled from the spec: [type::WalletStatus] is declared outside the
    sources; these are the states of section 4.2. *)
Inductive WalletStatus :=
| NOT_CONNECTED
| PENDING
| VERIFIED
| DISCONNECTED_VERIFIED.

#[global] Instance WalletStatus_eq_dec : EqDecision WalletStatus.
Proof. solve_decision. Defined.

(** Modelled from the spec: the custodian wallet record of section 3 (the
    structure itself is declared outside the sources). *)
Record ExternalWallet := {
  type : string;
  status : WalletStatus;
  address : string;
  token : string;
  one_time_string : string
}.

(** Modelled from the spec: the custodian's answer to the token exchange of
    section 6: an access token on success, an error description on failure,
    or a transport failure with its HTTP status. *)
Inductive ExchangeResponse :=
| access_token (t : string)
| error_description (message : string)
| transport_failure (status_code : Z).

(** Modelled from the spec: what a linking attempt meets outside the
    authorizer: the custodian's token endpoint (step 5), whether the
    custodian's semantics make an authorized wallet VERIFIED at once or
    PENDING first (step 8), and whether the encrypted wallet state can be
    written. *)
Record Custodian := {
  post_oauth : string -> ExchangeResponse;
  verifies_at_once : bool;
  SetWallet_succeeds : bool
}.

(** Modelled from the spec: what one call leaves behind: the result and the
    extra arguments handed to the callback, the stored wallet, and the
    authorization codes sent to the token endpoint. *)
Record Outcome := {
  result : Result;
  args_out : gmap string string;
  stored : option ExternalWallet;
  exchanged : list string
}.

(** The error description that reports ineligibility, as the test table
    spells it. *)
Definition kNotEligible : string := "User does not meet minimum requirements".

(** Modelled from the spec: step 6, the ineligibility report gets its own
    result, any other description the generic one. *)
Definition reported (message : string) : Result :=
  if decide (message = kNotEligible) then NOT_FOUND else LEDGER_ERROR.

(** Modelled from the spec: a step that fails ends the call; nothing is
    written. *)
Definition fail (r : Result) (wallet : option ExternalWallet)
    (codes : list string) : Outcome :=
  {| result := r; args_out := ∅; stored := wallet; exchanged := codes |}.

(** Modelled from the spec: the authorizer's implementation file is not
    among the sources (its test tables are).  The eight steps of section
    4.2, in the order given there.  The test tables hand the custodian's
    [error_description] over in the callback arguments (rows 03 and 04), so
    a description found there is answered as in step 6 before the
    arguments are looked at any further. *)
Definition WalletAuthorization (custodian : Custodian)
    (args : gmap string string) (wallet : option ExternalWallet) : Outcome :=
  match wallet with
  | None => fail LEDGER_ERROR wallet []                              (* 1 *)
  | Some uphold_wallet =>
      if decide (status uphold_wallet = VERIFIED) then
        fail LEDGER_ERROR wallet []                                  (* 2 *)
      else
        match args !! "error_description" with
        | Some message => fail (reported message) wallet []
        | None =>
            let code := default "" (args !! "code") in
            let state := default "" (args !! "state") in
            if decide (code = "") then fail LEDGER_ERROR wallet []   (* 3 *)
            else if decide (state = "") then fail LEDGER_ERROR wallet []
            else if decide (state = one_time_string uphold_wallet) then
              match post_oauth custodian code with                   (* 5 *)
              | error_description message =>
                  fail (reported message) wallet [code]              (* 6 *)
              | transport_failure _ =>
                  fail LEDGER_ERROR wallet [code]                    (* 7 *)
              | access_token t =>
                  if decide (t = "") then fail LEDGER_ERROR wallet [code]
                  else if SetWallet_succeeds custodian then          (* 8 *)
                    {| result := LEDGER_OK; args_out := ∅;
                       stored :=
                         Some {| type := type uphold_wallet;
                                 status :=
                                   if verifies_at_once custodian
                                   then VERIFIED else PENDING;
                                 address := address uphold_wallet;
                                 token := t;
                                 one_time_string := one_time_string uphold_wallet |};
                       exchanged := [code] |}
                  else fail LEDGER_ERROR wallet [code]
              end
            else fail LEDGER_ERROR wallet []                         (* 4 *)
        end
  end.

End uphold.

(* ===================================================================== *)
(** ** The refill coordinator: [RefillUnblindedTokens] *)
(* ===================================================================== *)

Module ads.

(** Modelled from the spec: the wallet structure is declared outside the
    sources; section 6 uses its payment identifier only. *)
Record WalletInfo := { id : string }.

(** The members of [RefillUnblindedTokens] that a refill cycle keeps
    between its steps, as the header declares them (tokens are opaque
    here; the retry timer is running or not), and the unblinded tokens held
    so far, which the cycle adds to. *)
Record RefillUnblindedTokens := {
  wallet_ : WalletInfo;
  nonce_ : string;
  tokens_ : list string;
  blinded_tokens_ : list string;
  retry_timer_ : bool;
  is_processing_ : bool;
  unblinded_tokens : list string
}.

(** Modelled from the spec: a request sent to the issuer (section 6), with
    the wallet's payment identifier and the blinded tokens to sign. *)
Record Request := {
  payment_id : string;
  blinded : list string
}.

(** Modelled from the spec: what can happen to the coordinator.  A caller
    asks for a refill; the round trips of the cycle in flight end with the
    whole batch unblinded (section 4.1, step 5) or with a failure that is
    retryable or fatal (step 6); the retry timer fires. *)
Inductive Call :=
| CallMaybeRefill (wallet : WalletInfo)
| CallOnDidRefillUnblindedTokens (unblinded : list string)
| CallOnFailedToRefillUnblindedTokens (should_retry : bool)
| CallOnRetry.

Section Refill.
(** The reserve the cache is refilled up to, and the injected token
    generator with the blinding of its tokens. *)
Variable target_reserve : nat.
Variable token_generator_ : nat -> list string.
Variable blind : string -> string.

(** Modelled from the spec: step 1, the number of tokens missing from the
    reserve. *)
Definition CalculateAmountOfTokensToRefill (r : RefillUnblindedTokens) : Z :=
  Z.of_nat target_reserve - Z.of_nat (length (unblinded_tokens r)).

(** Modelled from the spec: step 1, nothing is done unless tokens are
    missing. *)
Definition ShouldRefillUnblindedTokens (r : RefillUnblindedTokens) : bool :=
  bool_decide (0 < CalculateAmountOfTokensToRefill r).

(** Modelled from the spec: steps 2 to 4 for an idle coordinator: the cycle
    is marked as in progress for the wallet, the missing tokens are
    generated and blinded, and the request is sent. *)
Definition Refill (wallet : WalletInfo) (r : RefillUnblindedTokens)
    : RefillUnblindedTokens * list Request :=
  let needed := Z.to_nat (CalculateAmountOfTokensToRefill r) in
  let fresh := token_generator_ needed in
  ({| wallet_ := wallet; nonce_ := ""; tokens_ := fresh;
      blinded_tokens_ := blind <$> fresh; retry_timer_ := false;
      is_processing_ := true; unblinded_tokens := unblinded_tokens r |},
   [{| payment_id := id wallet; blinded := blind <$> fresh |}]).

(** Modelled from the spec: the coordinator's implementation file is not
    among the sources (its header is).  Section 4.1: a call while a cycle is
    in flight does nothing; otherwise step 1 decides whether there is
    anything to do. *)
Definition MaybeRefill (wallet : WalletInfo) (r : RefillUnblindedTokens)
    : RefillUnblindedTokens * list Request :=
  if is_processing_ r then (r, [])
  else if ShouldRefillUnblindedTokens r then Refill wallet r
  else (r, []).

(** Modelled from the spec: step 5, the whole batch is persisted and the
    cycle ends. *)
Definition OnDidRefillUnblindedTokens (unblinded : list string)
    (r : RefillUnblindedTokens) : RefillUnblindedTokens * list Request :=
  if is_processing_ r then
    ({| wallet_ := wallet_ r; nonce_ := nonce_ r; tokens_ := [];
        blinded_tokens_ := []; retry_timer_ := false;
        is_processing_ := false;
        unblinded_tokens := unblinded_tokens r ++ unblinded |}, [])
  else (r, []).

(** Modelled from the spec: step 6, a retryable failure starts the backoff
    timer and the cycle stays in flight; a fatal one ends the cycle with
    nothing persisted. *)
Definition OnFailedToRefillUnblindedTokens (should_retry : bool)
    (r : RefillUnblindedTokens) : RefillUnblindedTokens * list Request :=
  if is_processing_ r then
    ({| wallet_ := wallet_ r; nonce_ := nonce_ r; tokens_ := tokens_ r;
        blinded_tokens_ := blinded_tokens_ r; retry_timer_ := should_retry;
        is_processing_ := should_retry;
        unblinded_tokens := unblinded_tokens r |}, [])
  else (r, []).

(** Modelled from the spec: the backoff timer fires and the request of the
    cycle in flight is sent again. *)
Definition OnRetry (r : RefillUnblindedTokens)
    : RefillUnblindedTokens * list Request :=
  if retry_timer_ r then
    ({| wallet_ := wallet_ r; nonce_ := nonce_ r; tokens_ := tokens_ r;
        blinded_tokens_ := blinded_tokens_ r; retry_timer_ := false;
        is_processing_ := is_processing_ r;
        unblinded_tokens := unblinded_tokens r |},
     [{| payment_id := id (wallet_ r); blinded := blinded_tokens_ r |}])
  else (r, []).

Definition call (c : Call) (r : RefillUnblindedTokens)
    : RefillUnblindedTokens * list Request :=
  match c with
  | CallMaybeRefill wallet => MaybeRefill wallet r
  | CallOnDidRefillUnblindedTokens unblinded => OnDidRefillUnblindedTokens unblinded r
  | CallOnFailedToRefillUnblindedTokens should_retry =>
      OnFailedToRefillUnblindedTokens should_retry r
  | CallOnRetry => OnRetry r
  end.

(** A history of calls, with the requests it sends. *)
Fixpoint calls (cs : list Call) (r : RefillUnblindedTokens)
    : RefillUnblindedTokens * list Request :=
  match cs with
  | [] => (r, [])
  | c :: rest =>
      let '(r1, sent) := call c r in
      let '(r2, sent') := calls rest r1 in
      (r2, sent ++ sent')
  end.

(** The calls that start a cycle (a [MaybeRefill] that gets past both
    guards) and those that end one (the batch is persisted, or the failure
    is fatal). *)
Definition starts_cycle (c : Call) (r : RefillUnblindedTokens) : bool :=
  match c with
  | CallMaybeRefill _ => negb (is_processing_ r) && ShouldRefillUnblindedTokens r
  | _ => false
  end.

Definition ends_cycle (c : Call) (r : RefillUnblindedTokens) : bool :=
  match c with
  | CallOnDidRefillUnblindedTokens _
  | CallOnFailedToRefillUnblindedTokens false => is_processing_ r
  | _ => false
  end.

(** Modelled from the spec: a cycle is in flight while the in-progress flag
    is set (section 5). *)
Definition flying (r : RefillUnblindedTokens) : Z :=
  if is_processing_ r then 1 else 0.

(** The cycles started and not yet ended after a history, counted from
    [in_flight]. *)
Fixpoint cycles_in_flight (cs : list Call) (r : RefillUnblindedTokens)
    (in_flight : Z) : Z :=
  match cs with
  | [] => in_flight
  | c :: rest =>
      cycles_in_flight rest (call c r).1
        (in_flight + (if starts_cycle c r then 1 else 0)
                   - (if ends_cycle c r then 1 else 0))
  end.

End Refill.

(** A coordinator as constructed: idle, nothing held. *)
Definition idle : RefillUnblindedTokens :=
  {| wallet_ := {| id := "" |}; nonce_ := ""; tokens_ := [];
     blinded_tokens_ := []; retry_timer_ := false; is_processing_ := false;
     unblinded_tokens := [] |}.

End ads.

(* ===================================================================== *)
(** ** Views of the store used by its further properties *)
(* ===================================================================== *)

Module store_view.
Import ledger.

(** The commands that write the result of the response: INITIALIZE (the
    version) and READ (the records). *)
Definition has_result (c : DBCommand) : bool :=
  match mojom.type c with
  | INITIALIZE | READ => true
  | _ => false
  end.

(** The version number an INITIALIZE command answers with. *)
Definition answered_version (r : DBCommandResponse) : option Z :=
  match result r with
  | Some (result_value (INT_VALUE v)) => Some v
  | _ => None
  end.

(** What a store that has been initialised can rely on: its connection is
    open and its memory pressure listener exists. *)
Definition consistent {Tables : Type} (st : LedgerDatabase Tables) : Prop :=
  initialized_ st = true →
  db_is_open st = true ∧ memory_pressure_listener_ st = true.

(** The field that [CreateRecord] reads for one binding at one column. *)
Definition column_value (statement : Row) (column : nat)
    (binding : RecordBindingType) : DBValue :=
  match binding with
  | STRING_TYPE => STRING_VALUE (ColumnString statement column)
  | INT_TYPE => INT_VALUE (ColumnInt statement column)
  | INT64_TYPE => INT64_VALUE (ColumnInt64 statement column)
  | DOUBLE_TYPE => DOUBLE_VALUE (ColumnDouble statement column)
  | BOOL_TYPE => BOOL_VALUE (ColumnBool statement column)
  end.



End store_view.

(* ===================================================================== *)
(** ** The wallet lookup endpoint: [GetWallet] *)
(* ===================================================================== *)

Module promotion.
Import state.

(** The HTTP status codes the endpoint tells apart. *)
Definition HTTP_OK : Z := 200.
Definition HTTP_BAD_REQUEST : Z := 400.
Definition HTTP_NOT_FOUND : Z := 404.

(** The two fields of a URL response that [OnRequest] reads. *)
Record UrlResponse := {
  status_code : Z;
  body : string
}.

Definition CheckStatusCode (status_code : Z) : Result :=
  if decide (status_code = HTTP_BAD_REQUEST) then LEDGER_ERROR
  else if decide (status_code = HTTP_NOT_FOUND) then LEDGER_ERROR
  else if decide (status_code ≠ HTTP_OK) then LEDGER_ERROR
  else LEDGER_OK.

(** The components of a dotted path, as [Value::FindPath] walks them: the
    path is cut at every dot (character 46), and an empty path has no
    component. *)
Fixpoint cut_at_dots (path : string) : list string :=
  match path with
  | EmptyString => [EmptyString]
  | String c rest =>
      if Ascii.eqb c (Ascii.ascii_of_nat 46) then EmptyString :: cut_at_dots rest
      else
        match cut_at_dots rest with
        | first :: others => String c first :: others
        | [] => [String c EmptyString]
        end
  end.

Definition PathSplitter (path : string) : list string :=
  if decide (path = "") then [] else cut_at_dots path.

(** [Value::FindPath]: every component but the last must lead to a
    dictionary that has the next one. *)
Fixpoint walk (components : list string) (cur : Value) : option Value :=
  match components with
  | [] => Some cur
  | key :: rest =>
      match cur with
      | DICTIONARY entries =>
          match find_entry key entries with
          | Some next => walk rest next
          | None => None
          end
      | _ => None
      end
  end.

Definition FindPath (path : string) (v : Value) : option Value :=
  walk (PathSplitter path) v.

Definition FindStringPath (path : string) (v : Value) : option string :=
  match FindPath path v with
  | Some (STRING s) => Some s
  | _ => None
  end.

Section GetWallet.
(** The JSON reader of the base library. *)
Variable JSONReader_Read : string -> option Value.

(** [ParseBody]: the result, and the value of the [linked] reference after
    the call. *)
Definition ParseBody (body : string) (linked : bool) : Result * bool :=
  match JSONReader_Read body with
  | None => (LEDGER_ERROR, linked)
  | Some value =>
      if negb (is_dict value) then (LEDGER_ERROR, linked)
      else
        match FindStringPath "depositAccountProvider.linkingId" value with
        | None => (LEDGER_ERROR, linked)
        | Some linking_id =>
            (LEDGER_OK, negb (bool_decide (linking_id = "")))
        end
  end.

(** [OnRequest]: the two arguments its callback is invoked with. *)
Definition OnRequest (response : UrlResponse) : Result * bool :=
  let result := CheckStatusCode (status_code response) in
  if negb (bool_decide (result = LEDGER_OK)) then (result, false)
  else ParseBody (body response) false.

End GetWallet.

End promotion.

(* ===================================================================== *)
(** ** The hardware wallet connection form *)
(* ===================================================================== *)

Module hardware_wallet_connect.

(** The values the component meets where its types say [any]: undefined,
    null, an integer number, a string, or any other value (a boolean, a
    number that is not an integer, an object), of which only its
    truthiness matters here. *)
Inductive JsValue :=
| js_undefined
| js_null
| js_number (n : Z)
| js_string (s : string)
| js_other (is_truthy : bool).

Definition truthy (v : JsValue) : bool :=
  match v with
  | js_undefined | js_null => false
  | js_number n => negb (n =? 0)
  | js_string s => negb (bool_decide (s = ""))
  | js_other b => b
  end.

(** [v === n] for a number literal [n]. *)
Definition is_number (v : JsValue) (n : Z) : bool :=
  match v with
  | js_number m => m =? n
  | _ => false
  end.

(** The error a promise is rejected with: undefined or null, on which
    reading a property throws, or a value with its own truthiness and what
    reading its [statusCode] and [message] gives. *)
Inductive JsError :=
| nullish
| js_error (self_truthy : bool) (statusCode message : JsValue).

Record ErrorMessage := {
  error : JsValue;
  userHint : string
}.

Record HardwareWalletConnectOpts := {
  hardware : string;
  startIndex : nat;
  stopIndex : nat;
  scheme : string
}.

Definition derivationBatch : nat := 4.

Section Component.
(** The account type of the accounts list, of which the component reads the
    derivation path; the locale table; the two vendor names and the
    default derivation scheme. *)
Variable HardwareWalletAccount : Type.
Variable derivationPath : HardwareWalletAccount -> string.
Variable getLocale : string -> string.
Variable kLedgerHardwareVendor : string.
Variable kTrezorHardwareVendor : string.
Variable LedgerLive : string.

(** The state hooks of the component. *)
Record State := {
  selectedHardwareWallet : string;
  isConnecting : bool;
  isConnected : bool;
  accounts : list HardwareWalletAccount;
  selectedDerivationPaths : list string;
  connectionError : option ErrorMessage;
  selectedDerivationScheme : string
}.

Definition initial : State :=
  {| selectedHardwareWallet := kLedgerHardwareVendor;
     isConnecting := false; isConnected := false; accounts := [];
     selectedDerivationPaths := []; connectionError := None;
     selectedDerivationScheme := LedgerLive |}.

(** The setters, each replacing one hook of the current state. *)
Definition setSelectedHardwareWallet (v : string) (s : State) : State :=
  {| selectedHardwareWallet := v; isConnecting := isConnecting s;
     isConnected := isConnected s; accounts := accounts s;
     selectedDerivationPaths := selectedDerivationPaths s;
     connectionError := connectionError s;
     selectedDerivationScheme := selectedDerivationScheme s |}.

Definition setIsConnecting (v : bool) (s : State) : State :=
  {| selectedHardwareWallet := selectedHardwareWallet s; isConnecting := v;
     isConnected := isConnected s; accounts := accounts s;
     selectedDerivationPaths := selectedDerivationPaths s;
     connectionError := connectionError s;
     selectedDerivationScheme := selectedDerivationScheme s |}.

Definition setIsConnected (v : bool) (s : State) : State :=
  {| selectedHardwareWallet := selectedHardwareWallet s;
     isConnecting := isConnecting s; isConnected := v; accounts := accounts s;
     selectedDerivationPaths := selectedDerivationPaths s;
     connectionError := connectionError s;
     selectedDerivationScheme := selectedDerivationScheme s |}.

Definition setAccounts (v : list HardwareWalletAccount) (s : State) : State :=
  {| selectedHardwareWallet := selectedHardwareWallet s;
     isConnecting := isConnecting s; isConnected := isConnected s;
     accounts := v;
     selectedDerivationPaths := selectedDerivationPaths s;
     connectionError := connectionError s;
     selectedDerivationScheme := selectedDerivationScheme s |}.

Definition setConnectionError (v : ErrorMessage) (s : State) : State :=
  {| selectedHardwareWallet := selectedHardwareWallet s;
     isConnecting := isConnecting s; isConnected := isConnected s;
     accounts := accounts s;
     selectedDerivationPaths := selectedDerivationPaths s;
     connectionError := Some v;
     selectedDerivationScheme := selectedDerivationScheme s |}.

Definition setSelectedDerivationScheme (v : string) (s : State) : State :=
  {| selectedHardwareWallet := selectedHardwareWallet s;
     isConnecting := isConnecting s; isConnected := isConnected s;
     accounts := accounts s;
     selectedDerivationPaths := selectedDerivationPaths s;
     connectionError := connectionError s;
     selectedDerivationScheme := v |}.

(** [getErrorMessage]: the message, or nothing when reading
    [error.statusCode] throws. *)
Definition getErrorMessage (e : JsError) : option ErrorMessage :=
  match e with
  | nullish => None
  | js_error self_truthy statusCode message =>
      if truthy statusCode && is_number statusCode 27404 then
        Some {| error := js_string (getLocale "braveWalletConnectHardwareInfo2");
                userHint := "" |}
      else if truthy statusCode
              && (is_number statusCode 27904 || is_number statusCode 26368) then
        Some {| error := message;
                userHint :=
                  getLocale "braveWalletConnectHardwareWrongApplicationUserHint" |}
      else if negb self_truthy || negb (truthy message) then
        Some {| error := js_string (getLocale "braveWalletUnknownInternalError");
                userHint := "" |}
      else Some {| error := message; userHint := "" |}
  end.

(** [onConnectHardwareWallet], called in a render whose state is [s]: the
    options of the request it sends, the state change it makes at once,
    and what its two promise handlers do to the state current when they
    run.  The handlers see the accounts of the render they were created
    in.  A handler that throws stops there; [None] is that case, the
    setters called before it having taken effect in the state given. *)
Definition connect_opts (s : State) (hardware : string)
    : HardwareWalletConnectOpts :=
  {| hardware := hardware;
     startIndex := length (accounts s);
     stopIndex := length (accounts s) + derivationBatch;
     scheme := selectedDerivationScheme s |}.

Definition connect_started (cur : State) : State :=
  setIsConnecting true cur.

Definition connect_resolved (s : State) (result : list HardwareWalletAccount)
    (cur : State) : State :=
  setIsConnecting false
    (setIsConnected true (setAccounts (accounts s ++ result) cur)).

Definition connect_rejected (e : JsError) (cur : State) : State * bool :=
  match getErrorMessage e with
  | None => (cur, false)
  | Some message =>
      (setIsConnecting false
         (setIsConnected false (setConnectionError message cur)), true)
  end.

(** [onSelectedDerivationScheme], in the same way. *)
Definition scheme_opts (s : State) (scheme : string)
    : HardwareWalletConnectOpts :=
  {| hardware := selectedHardwareWallet s;
     startIndex := 0;
     stopIndex := derivationBatch;
     scheme := scheme |}.

Definition scheme_started (scheme : string) (cur : State) : State :=
  setAccounts [] (setSelectedDerivationScheme scheme cur).

Definition scheme_resolved (result : list HardwareWalletAccount)
    (cur : State) : State :=
  setIsConnected true (setAccounts result cur).

Definition scheme_rejected (e : JsError) (cur : State) : State * bool :=
  match getErrorMessage e with
  | None => (setIsConnecting false cur, false)
  | Some message =>
      (setConnectionError message (setIsConnecting false cur), true)
  end.

(** [onAddAccounts]: the accounts handed to [onAddHardwareAccounts]. *)
Definition onAddAccounts (s : State) : list HardwareWalletAccount :=
  List.filter
    (fun o => bool_decide (derivationPath o ∈ selectedDerivationPaths s))
    (accounts s).

Definition onSelectLedger (cur : State) : State :=
  setSelectedHardwareWallet kLedgerHardwareVendor cur.

Definition onSelectTrezor (cur : State) : State :=
  setSelectedHardwareWallet kTrezorHardwareVendor cur.

(** What the component renders: the accounts list once connected, else the
    form with the vendor buttons, the error if there is one and either the
    connecting indicator or the connect button. *)
Inductive View :=
| HardwareWalletAccountsList (hardwareWallet : string)
    (shown : list HardwareWalletAccount) (paths : list string)
    (scheme : string)
| ConnectForm (ledger_selected trezor_selected : bool)
    (shown_error : option ErrorMessage) (connecting : bool).

Definition render (s : State) : View :=
  if isConnected s then
    HardwareWalletAccountsList (selectedHardwareWallet s) (accounts s)
      (selectedDerivationPaths s) (selectedDerivationScheme s)
  else
    ConnectForm
      (bool_decide (selectedHardwareWallet s = kLedgerHardwareVendor))
      (bool_decide (selectedHardwareWallet s = kTrezorHardwareVendor))
      (connectionError s) (isConnecting s).

(** Loading batch after batch from the accounts list: each click happens in
    the render that follows the resolution of the click before.  The
    options of the requests sent are collected. *)
Fixpoint load_batches (s : State) (batches : list (list HardwareWalletAccount))
    : State * list HardwareWalletConnectOpts :=
  match batches with
  | [] => (s, [])
  | batch :: rest =>
      let opts := connect_opts s (selectedHardwareWallet s) in
      let s1 := connect_resolved s batch (connect_started s) in
      let '(s2, sent) := load_batches s1 rest in
      (s2, opts :: sent)
  end.

End Component.

Arguments selectedHardwareWallet {_} _.
Arguments isConnecting {_} _.
Arguments isConnected {_} _.
Arguments accounts {_} _.
Arguments selectedDerivationPaths {_} _.
Arguments connectionError {_} _.
Arguments selectedDerivationScheme {_} _.
Arguments connect_opts {_} _ _.
Arguments connect_started {_} _.
Arguments connect_resolved {_} _ _ _.
Arguments connect_rejected {_} _ _ _.
Arguments scheme_opts {_} _ _.
Arguments scheme_started {_} _ _.
Arguments scheme_resolved {_} _ _.
Arguments scheme_rejected {_} _ _ _.
Arguments render {_} _ _ _.
Arguments load_batches {_} _ _.
Arguments HardwareWalletAccountsList {_} _ _ _ _.
Arguments ConnectForm {_} _ _ _ _.

End hardware_wallet_connect.

(* ===================================================================== *)
(** ** Concrete collaborators used to run the models *)
(* ===================================================================== *)

Module examples.
Import ledger.

(** An engine whose tables are the journal of the statements applied: every
    statement is appended, and the statements listed in [failing] fail
    (after having been appended, so that only a rollback undoes them).  A
    query yields no rows and a failed COMMIT leaves the pending contents in
    view. *)
Definition journal_engine (failing : list string) : Engine (list string) :=
  {| sql_Execute := fun sql c =>
       (negb (bool_decide (sql ∈ failing)),
        {| meta := meta c; tables := tables c ++ [sql] |});
     sql_Run := fun sql _ c =>
       (negb (bool_decide (sql ∈ failing)),
        {| meta := meta c; tables := tables c ++ [sql] |});
     sql_Step := fun _ _ c => ([], c);
     sql_failed_commit := fun _ current => current |}.

(** A store as constructed: closed, nothing on disk, not initialised. *)
Definition fresh : LedgerDatabase (list string) :=
  {| db_is_open := false;
     db_ := {| meta := None; tables := [] |};
     initialized_ := false;
     memory_pressure_listener_ := false |}.

Definition all_fine : Io :=
  {| Open_succeeds := true; Begin_succeeds := true;
     MetaInit_succeeds := true; Commit_succeeds := true |}.

Definition cmd (t : Type_) (sql : string) : DBCommand :=
  {| mojom.type := t; command := sql; bindings := []; record_bindings := [] |}.

Definition transaction (v cv : Z) (cmds : list DBCommand) : DBTransaction :=
  {| version := v; compatible_version := cv; commands := cmds |}.

(** The store after a first transaction that initialises it at version 3
    (compatible with 2). *)
Definition initialised : LedgerDatabase (list string) :=
  (RunTransaction (journal_engine []) all_fine
     (transaction 3 2 [cmd INITIALIZE ""]) fresh).1.2.

(** Collaborators of the migration: a preference value decrypts to itself
    unless it reads "corrupt"; one JSON text is known to the reader, and one
    base64 text to the decoder; the wallet table is the list of the wallets
    saved, and whether saving succeeds is given. *)
Definition migration_collaborators (saves : bool)
    : state.Collaborators (list state.RewardsWallet) :=
  {| state.JSONReader_Read := fun data =>
       if decide (data = "{wallet}") then
         Some (state.DICTIONARY
                 [("payment_id", state.STRING "fa5dea51-6af4-44ca-801b-07b6df3dcfe4");
                  ("recovery_seed", state.STRING "c2VlZA==")])
       else if decide (data = "{no seed}") then
         Some (state.DICTIONARY
                 [("payment_id", state.STRING "fa5dea51-6af4-44ca-801b-07b6df3dcfe4")])
       else None;
     state.Base64Decode := fun text =>
       if decide (text = "c2VlZA==") then Some "seed" else None;
     state.Base64DecryptString := fun data =>
       if decide (data = "corrupt") then None else Some data;
     state.SaveNew := fun id seed table =>
       if saves
       then (true, table ++ [{| state.payment_id := id; state.recovery_seed := seed |}])
       else (false, table) |}.

(** The wallet of the authorization test table, rows 08 to 14: not
    connected, holding the linking nonce. *)
Definition test_wallet : uphold.ExternalWallet :=
  {| uphold.type := "uphold"; uphold.status := uphold.NOT_CONNECTED;
     uphold.address := ""; uphold.token := "";
     uphold.one_time_string := "one_time_string" |}.

Definition verified_wallet : uphold.ExternalWallet :=
  {| uphold.type := "uphold"; uphold.status := uphold.VERIFIED;
     uphold.address := ""; uphold.token := ""; uphold.one_time_string := "" |}.

(** A custodian with a given answer of the token endpoint, whose authorized
    wallets are PENDING first. *)
Definition test_custodian (answer : uphold.ExchangeResponse) (set_wallet : bool)
    : uphold.Custodian :=
  {| uphold.post_oauth := fun _ => answer;
     uphold.verifies_at_once := false;
     uphold.SetWallet_succeeds := set_wallet |}.

End examples.

(** Further data for the later sections. *)
Module samples.
Import ledger examples.

(** A row whose integer columns hold the row number plus the column
    index. *)
Definition sample_row (n : Z) : Row :=
  {| ColumnString := fun _ => "name";
     ColumnInt := fun column => n + Z.of_nat column;
     ColumnInt64 := fun column => n + Z.of_nat column;
     ColumnDouble := fun _ => 0;
     ColumnBool := fun _ => true |}.

(** The journal engine, with two rows for every query. *)
Definition two_rows_engine : Engine (list string) :=
  {| sql_Execute := sql_Execute (journal_engine []);
     sql_Run := sql_Run (journal_engine []);
     sql_Step := fun _ _ c => ([sample_row 10; sample_row 20], c);
     sql_failed_commit := sql_failed_commit (journal_engine []) |}.

Definition select_two : DBCommand :=
  {| mojom.type := READ; command := "SELECT name, amount FROM t";
     bindings := []; record_bindings := [STRING_TYPE; INT_TYPE] |}.

(** A wallet lookup answer: the reader knows one body, of a linked
    wallet. *)
Definition linked_body_reader (data : string) : option state.Value :=
  if decide (data = "{linked}") then
    Some (state.DICTIONARY
            [("depositAccountProvider",
              state.DICTIONARY
                [("name", state.STRING "uphold");
                 ("linkingId", state.STRING "2698ba94")])])
  else None.

(** The connection form with accounts that are their own derivation
    paths, connected and showing two accounts. *)
Definition connected_form : hardware_wallet_connect.State string :=
  {| hardware_wallet_connect.selectedHardwareWallet := "Ledger";
     hardware_wallet_connect.isConnecting := false;
     hardware_wallet_connect.isConnected := true;
     hardware_wallet_connect.accounts := ["m/44'/60'/0'/0/0"; "m/44'/60'/1'/0/0"];
     hardware_wallet_connect.selectedDerivationPaths := [];
     hardware_wallet_connect.connectionError := None;
     hardware_wallet_connect.selectedDerivationScheme := "live" |}.

End samples.

(* ===================================================================== *)
(** ** Properties of the persistent store *)
(* ===================================================================== *)

Section StoreFacts.
Import ledger.
Context {Tables : Type}.
Variable engine : Engine Tables.

#[local] Ltac run_cases :=
  unfold run_command, Initialize, Read, Execute, Run, Migrate, MetaTable_Init,
    with_db in *;
  repeat case_match; simplify_eq/=.

Lemma run_command_status io tx c f :
  let s := (run_command engine io tx c f).1.1 in
  s = RESPONSE_OK ∨ s = INITIALIZATION_ERROR ∨ s = COMMAND_ERROR.
Proof. run_cases; auto. Qed.

Lemma run_command_keeps_open io tx c f s f' calls :
  run_command engine io tx c f = (s, f', calls) →
  db_is_open (store f') = db_is_open (store f).
Proof. intros H. run_cases; done. Qed.


Lemma run_command_keeps_status io tx c f s f' calls :
  run_command engine io tx c f = (s, f', calls) →
  status (command_response f') = status (command_response f).
Proof. intros H. run_cases; done. Qed.

Lemma run_command_inside io tx c f s f' calls :
  run_command engine io tx c f = (s, f', calls) →
  forallb inside calls = true.
Proof. intros H. run_cases; done. Qed.

Lemma run_commands_keeps_open io tx cmds : ∀ f s f' calls,
  run_commands engine io tx cmds f = (s, f', calls) →
  db_is_open (store f') = db_is_open (store f).
Proof.
  induction cmds as [|c rest IH]; intros f s f' calls H; simpl in H.
  - by simplify_eq.
  - destruct (run_command engine io tx c f) as [[s1 f1] t1] eqn:E1.
    apply run_command_keeps_open in E1.
    destruct (is_ok s1).
    + destruct (run_commands engine io tx rest f1) as [[s2 f2] t2] eqn:E2.
      simplify_eq. rewrite (IH _ _ _ _ E2). done.
    + by simplify_eq.
Qed.


Lemma run_commands_keeps_status io tx cmds : ∀ f s f' calls,
  run_commands engine io tx cmds f = (s, f', calls) →
  status (command_response f') = status (command_response f).
Proof.
  induction cmds as [|c rest IH]; intros f s f' calls H; simpl in H.
  - by simplify_eq.
  - destruct (run_command engine io tx c f) as [[s1 f1] t1] eqn:E1.
    apply run_command_keeps_status in E1.
    destruct (is_ok s1).
    + destruct (run_commands engine io tx rest f1) as [[s2 f2] t2] eqn:E2.
      simplify_eq. rewrite (IH _ _ _ _ E2). done.
    + by simplify_eq.
Qed.

Lemma run_commands_inside io tx cmds : ∀ f s f' calls,
  run_commands engine io tx cmds f = (s, f', calls) →
  forallb inside calls = true.
Proof.
  induction cmds as [|c rest IH]; intros f s f' calls H; simpl in H.
  - by simplify_eq.
  - destruct (run_command engine io tx c f) as [[s1 f1] t1] eqn:E1.
    apply run_command_inside in E1.
    destruct (is_ok s1).
    + destruct (run_commands engine io tx rest f1) as [[s2 f2] t2] eqn:E2.
      simplify_eq. rewrite forallb_app, E1. simpl. eauto.
    + by simplify_eq.
Qed.

Lemma run_commands_status io tx cmds : ∀ f,
  let s := (run_commands engine io tx cmds f).1.1 in
  s = RESPONSE_OK ∨ s = INITIALIZATION_ERROR ∨ s = COMMAND_ERROR.
Proof.
  induction cmds as [|c rest IH]; intros f; simpl; [auto|].
  pose proof (run_command_status io tx c f) as Hc.
  destruct (run_command engine io tx c f) as [[s1 f1] t1]; simpl in Hc.
  destruct (is_ok s1) eqn:Hok.
  - specialize (IH f1).
    destruct (run_commands engine io tx rest f1) as [[s2 f2] t2]. exact IH.
  - exact Hc.
Qed.


(** Inside the loop a transaction is only consulted for its two version
    numbers. *)
Lemma run_commands_with_commands io tx other cmds : ∀ f,
  run_commands engine io (with_commands other tx) cmds f
  = run_commands engine io tx cmds f.
Proof.
  induction cmds as [|c rest IH]; intros f; simpl; [done|].
  replace (run_command engine io (with_commands other tx) c f)
    with (run_command engine io tx c f) by done.
  destruct (run_command engine io tx c f) as [[s1 f1] t1].
  destruct (is_ok s1); [|done]. by rewrite IH.
Qed.

Lemma is_ok_false s : s ≠ RESPONSE_OK → is_ok s = false.
Proof. by destruct s. Qed.

Lemma opened_guard (st : LedgerDatabase Tables) io :
  (db_is_open st || Open_succeeds io) = true →
  negb (db_is_open st) && negb (Open_succeeds io) = false.
Proof. by destruct (db_is_open st), (Open_succeeds io). Qed.


(** Once the database is open and the transaction has begun, a failing loop
    ends in a rollback to the contents before the call. *)
Lemma RunTransaction_loop_fails io tx (st : LedgerDatabase Tables) s f calls :
  (db_is_open st || Open_succeeds io) = true →
  is_sole_close (commands tx) = false →
  Begin_succeeds io = true →
  run_commands engine io tx (commands tx) (first_frame st) = (s, f, calls) →
  is_ok s = false →
  RunTransaction engine io tx st
  = (set_status s (command_response f), with_db (db_ st) (store f),
     opening st ++ [committer_Begin true] ++ calls ++ [committer_Rollback]).
Proof.
  intros Hopen Hsole Hbegin Hrun Hs. unfold RunTransaction.
  by rewrite (opened_guard _ _ Hopen), Hsole, Hbegin, Hrun, Hs.
Qed.



(** *** Commands on a store that is not initialised *)

(** C7 (amended). On a store whose initialised flag is unset, READ, EXECUTE,
    RUN and MIGRATE answer INITIALIZATION_ERROR without touching the store or
    calling the database; the only commands of the loop that answer
    RESPONSE_OK are INITIALIZE and VACUUM (which does answer it), and a CLOSE
    sent alone is answered RESPONSE_OK outside the loop. *)
Theorem uninitialized_store_commands io tx c (f : Frame Tables) :
  initialized_ (store f) = false →
  (Read engine c (command_response f) (store f)
   = (INITIALIZATION_ERROR, command_response f, store f, [])
   ∧ Execute engine c (store f) = (INITIALIZATION_ERROR, store f, [])
   ∧ Run engine c (store f) = (INITIALIZATION_ERROR, store f, [])
   ∧ Migrate (version tx) (compatible_version tx) (store f)
     = (INITIALIZATION_ERROR, store f, []))
  ∧ (mojom.type c = READ ∨ mojom.type c = EXECUTE ∨ mojom.type c = RUN
     ∨ mojom.type c = MIGRATE →
     run_command engine io tx c f = (INITIALIZATION_ERROR, f, []))
  ∧ ((run_command engine io tx c f).1.1 = RESPONSE_OK →
     mojom.type c = INITIALIZE ∨ mojom.type c = VACUUM)
  ∧ (mojom.type c = VACUUM →
     (run_command engine io tx c f).1.1 = RESPONSE_OK)
  ∧ (is_sole_close (commands tx) = true →
     (db_is_open (store f) || Open_succeeds io) = true →
     status (RunTransaction engine io tx (store f)).1.1 = RESPONSE_OK).
Proof.
  intros Hinit. destruct f as [st response flag]. simpl in *.
  split; [|split; [|split; [|split]]]; cycle 4.
  { intros Hsole Hopen. unfold RunTransaction.
    by rewrite (opened_guard _ _ Hopen), Hsole. }
  - unfold Read, Execute, Run, Migrate. by rewrite Hinit.
  - intros Hty. unfold run_command, Read, Execute, Run, Migrate. simpl.
    rewrite Hinit. by destruct Hty as [->|[->|[->| ->]]].
  - unfold run_command, Read, Execute, Run, Migrate. simpl. rewrite Hinit.
    destruct (mojom.type c); simpl; auto; discriminate.
  - intros Hty. unfold run_command. by rewrite Hty.
Qed.

(** *** MIGRATE and the stored version numbers *)

(** C8 (amended). MIGRATE on an initialised store answers RESPONSE_OK and
    overwrites the stored version and compatible version with the
    transaction's numbers (when the meta table is missing nothing is stored
    and both read 0); so a stored number does not decrease across a MIGRATE
    whenever the transaction's number is at least the stored one.  A
    committed transaction of one MIGRATE leaves exactly that in the
    database. *)
Theorem Migrate_overwrites_versions v cv (st : LedgerDatabase Tables) :
  initialized_ st = true →
  (Migrate v cv st).1.1 = RESPONSE_OK
  ∧ MetaTable_GetVersionNumber (db_ (Migrate v cv st).1.2)
    = (if MetaTable_DoesTableExist (db_ st) then v else 0)
  ∧ MetaTable_GetCompatibleVersionNumber (db_ (Migrate v cv st).1.2)
    = (if MetaTable_DoesTableExist (db_ st) then cv else 0)
  ∧ (MetaTable_GetVersionNumber (db_ st) ≤ v →
     MetaTable_GetVersionNumber (db_ st)
     ≤ MetaTable_GetVersionNumber (db_ (Migrate v cv st).1.2))
  ∧ (MetaTable_GetCompatibleVersionNumber (db_ st) ≤ cv →
     MetaTable_GetCompatibleVersionNumber (db_ st)
     ≤ MetaTable_GetCompatibleVersionNumber (db_ (Migrate v cv st).1.2))
  ∧ (∀ io tx c,
       commands tx = [c] → mojom.type c = MIGRATE →
       version tx = v → compatible_version tx = cv →
       db_is_open st = true →
       Begin_succeeds io = true → Commit_succeeds io = true →
       status (RunTransaction engine io tx st).1.1 = RESPONSE_OK
       ∧ db_ (RunTransaction engine io tx st).1.2 = db_ (Migrate v cv st).1.2).
Proof.
  intros Hinit.
  split; [|split; [|split; [|split; [|split]]]]; cycle 5.
  { intros io tx c Hcmds Hty <- <- Hopen Hbegin Hcommit.
    unfold RunTransaction.
    rewrite Hopen, Hcmds, Hbegin, Hcommit. simpl.
    unfold is_close, run_command. rewrite Hty.
    unfold Migrate. simpl. by rewrite Hinit. }
  all: unfold Migrate; rewrite Hinit; simpl;
    unfold MetaTable_GetVersionNumber, MetaTable_GetCompatibleVersionNumber,
      MetaTable_SetCompatibleVersionNumber, MetaTable_SetVersionNumber,
      MetaTable_SetValue, MetaTable_DoesTableExist;
    destruct (meta (db_ st)) as [rows|] eqn:Hmeta; simpl; rewrite ?Hmeta;
    simpl; try done.
  - by rewrite lookup_insert_ne, lookup_insert_eq.
  - by rewrite lookup_insert_eq.
  - by rewrite lookup_insert_ne, lookup_insert_eq.
  - by rewrite lookup_insert_eq.
Qed.

(** *** CLOSE among other commands *)

Lemma inside_not_close calls :
  forallb inside calls = true →
  (db_Close ∉ calls) ∧ (committer_Rollback ∉ calls)
  ∧ (committer_Commit true ∉ calls).
Proof.
  intros H. rewrite forallb_forall in H.
  repeat split; intros Hin%list_elem_of_In; by apply H in Hin.
Qed.






(** *** VACUUM *)

Lemma run_command_vacuum io tx c (g : Frame Tables) :
  is_vacuum c = true →
  run_command engine io tx c g
  = (RESPONSE_OK,
     {| store := store g; command_response := command_response g;
        vacuum_requested := true |}, []).
Proof.
  unfold is_vacuum, run_command. by destruct (mojom.type c).
Qed.

(** Apart from VACUUM, a command neither reads nor writes the flag. *)
Lemma run_command_flag io tx c (f g : Frame Tables) :
  is_vacuum c = false →
  store f = store g → command_response f = command_response g →
  (run_command engine io tx c f).1.1 = (run_command engine io tx c g).1.1
  ∧ store (run_command engine io tx c f).1.2
    = store (run_command engine io tx c g).1.2
  ∧ command_response (run_command engine io tx c f).1.2
    = command_response (run_command engine io tx c g).1.2
  ∧ (run_command engine io tx c f).2 = (run_command engine io tx c g).2
  ∧ vacuum_requested (run_command engine io tx c f).1.2 = vacuum_requested f.
Proof.
  intros Hv Hst Hresp. destruct f as [st r v], g as [st' r' v'].
  simpl in *. subst st' r'. unfold is_vacuum in Hv.
  unfold run_command; destruct (mojom.type c); try done; simpl;
    repeat case_match; done.
Qed.

(** The loop over a command list and over the list without its VACUUM
    commands do the same work. *)
Lemma run_commands_without_vacuum io tx cmds : ∀ f g : Frame Tables,
  store f = store g → command_response f = command_response g →
  (run_commands engine io tx cmds f).1.1
  = (run_commands engine io tx
       (List.filter (λ c, negb (is_vacuum c)) cmds) g).1.1
  ∧ store (run_commands engine io tx cmds f).1.2
    = store (run_commands engine io tx
               (List.filter (λ c, negb (is_vacuum c)) cmds) g).1.2
  ∧ command_response (run_commands engine io tx cmds f).1.2
    = command_response
        (run_commands engine io tx
           (List.filter (λ c, negb (is_vacuum c)) cmds) g).1.2
  ∧ (run_commands engine io tx cmds f).2
    = (run_commands engine io tx
         (List.filter (λ c, negb (is_vacuum c)) cmds) g).2.
Proof.
  induction cmds as [|c rest IH]; intros f g Hst Hresp; simpl; [done|].
  destruct (is_vacuum c) eqn:Hv; simpl.
  - rewrite (run_command_vacuum io tx c f Hv). simpl.
    specialize (IH {| store := store f; command_response := command_response f;
                      vacuum_requested := true |} g Hst Hresp).
    destruct (run_commands engine io tx rest _) as [[s2 f2] t2]. exact IH.
  - destruct (run_command_flag io tx c f g Hv Hst Hresp)
      as (Hs & Hst1 & Hresp1 & Hcalls & _).
    destruct (run_command engine io tx c f) as [[s1 f1] t1].
    destruct (run_command engine io tx c g) as [[s1' g1] t1'].
    simpl in *. subst s1' t1'.
    destruct (is_ok s1); [|done].
    specialize (IH f1 g1 Hst1 Hresp1).
    destruct (run_commands engine io tx rest f1) as [[s2 f2] t2].
    destruct (run_commands engine io tx _ g1) as [[s2' g2] t2'].
    simpl in *. destruct IH as (-> & -> & -> & ->). done.
Qed.

(** A loop that completes has the flag set exactly when it was set before or
    one of the commands is a VACUUM. *)
Lemma run_commands_flag io tx cmds : ∀ (f : Frame Tables) f' calls,
  run_commands engine io tx cmds f = (RESPONSE_OK, f', calls) →
  vacuum_requested f' = vacuum_requested f || existsb is_vacuum cmds.
Proof.
  induction cmds as [|c rest IH]; intros f f' calls Hrun; simpl in *.
  - simplify_eq. by rewrite orb_false_r.
  - destruct (is_vacuum c) eqn:Hv.
    + rewrite (run_command_vacuum io tx c f Hv) in Hrun. simpl in Hrun.
      destruct (run_commands engine io tx rest _) as [[s2 f2] t2] eqn:E2.
      simplify_eq. rewrite (IH _ _ _ E2). simpl. by rewrite orb_true_r.
    + destruct (run_command_flag io tx c f f Hv eq_refl eq_refl)
        as (_ & _ & _ & _ & Hflag).
      destruct (run_command engine io tx c f) as [[s1 f1] t1].
      destruct (is_ok s1) eqn:Hok.
      * destruct (run_commands engine io tx rest f1) as [[s2 f2] t2] eqn:E2.
        simplify_eq. rewrite (IH _ _ _ E2). simpl in Hflag. by rewrite Hflag.
      * by simplify_eq.
Qed.

Lemma vacuum_not_sole_close cmds :
  existsb is_vacuum cmds = true → is_sole_close cmds = false.
Proof.
  destruct cmds as [|c [|d l]]; simpl; try done.
  unfold is_vacuum, is_close. by destruct (mojom.type c).
Qed.

(** C6. In a transaction that holds a VACUUM command, the command itself
    only sets the flag: the loop makes the calls it would make without the
    VACUUM commands, none of them on the transaction object.  The vacuum
    statement is run once, right after a successful commit; whether it
    succeeds or not the answer is RESPONSE_OK and nothing is rolled back, a
    failure being logged.  When the database does not open, the transaction
    does not begin, a command fails or the commit fails, no vacuum
    follows. *)
Theorem vacuum_runs_once_after_commit io tx (st : LedgerDatabase Tables) s f calls :
  existsb is_vacuum (commands tx) = true →
  run_commands engine io tx (commands tx) (first_frame st) = (s, f, calls) →
  (∀ c g, is_vacuum c = true →
     run_command engine io tx c g
     = (RESPONSE_OK,
        {| store := store g; command_response := command_response g;
           vacuum_requested := true |}, []))
  ∧ ((run_commands engine io tx
        (List.filter (λ c, negb (is_vacuum c)) (commands tx)) (first_frame st)).2
     = calls
     ∧ store (run_commands engine io tx
                (List.filter (λ c, negb (is_vacuum c)) (commands tx))
                (first_frame st)).1.2
       = store f
     ∧ forallb inside calls = true)
  ∧ (db_is_open st = false → Open_succeeds io = false →
     (RunTransaction engine io tx st).2 = [db_Open false])
  ∧ ((db_is_open st || Open_succeeds io) = true → Begin_succeeds io = false →
     (RunTransaction engine io tx st).2 = opening st ++ [committer_Begin false])
  ∧ ((db_is_open st || Open_succeeds io) = true → Begin_succeeds io = true →
     (s ≠ RESPONSE_OK →
      (RunTransaction engine io tx st).2
      = opening st ++ [committer_Begin true] ++ calls ++ [committer_Rollback])
     ∧ (s = RESPONSE_OK → Commit_succeeds io = false →
        (RunTransaction engine io tx st).2
        = opening st ++ [committer_Begin true] ++ calls
          ++ [committer_Commit false])
     ∧ (s = RESPONSE_OK → Commit_succeeds io = true →
        ∀ ok c, sql_Execute engine "VACUUM" (db_ (store f)) = (ok, c) →
          RunTransaction engine io tx st
          = (command_response f, with_db c (store f),
             opening st ++ [committer_Begin true] ++ calls
             ++ [committer_Commit true; db_Execute "VACUUM" ok]
             ++ (if ok then [] else [BLOG "Error executing VACUUM"]))
          ∧ status (RunTransaction engine io tx st).1.1 = RESPONSE_OK
          ∧ (committer_Rollback ∉ (RunTransaction engine io tx st).2))).
Proof.
  intros Hvac Hrun.
  pose proof (vacuum_not_sole_close _ Hvac) as Hsole.
  pose proof (run_commands_inside io tx _ _ _ _ _ Hrun) as Hinside.
  split; [|split; [|split; [|split]]].
  - intros c g. apply run_command_vacuum.
  - destruct (run_commands_without_vacuum io tx (commands tx)
                (first_frame st) (first_frame st) eq_refl eq_refl)
      as (_ & Hst & _ & Hcalls).
    rewrite Hrun in Hst, Hcalls. simpl in *. by rewrite <- Hst, <- Hcalls.
  - intros Hopen Hio. unfold RunTransaction. by rewrite Hopen, Hio.
  - intros Hopen Hbegin. unfold RunTransaction.
    by rewrite (opened_guard _ _ Hopen), Hsole, Hbegin.
  - intros Hopen Hbegin. split; [|split].
    + intros Hs.
      by rewrite (RunTransaction_loop_fails io tx st s f calls)
        by auto using is_ok_false.
    + intros -> Hcommit. unfold RunTransaction.
      by rewrite (opened_guard _ _ Hopen), Hsole, Hbegin, Hrun, Hcommit.
    + intros -> Hcommit ok c Hexec.
      pose proof (run_commands_flag io tx _ _ _ _ Hrun) as Hflag.
      rewrite Hvac in Hflag. simpl in Hflag.
      pose proof (run_commands_keeps_status io tx _ _ _ _ _ Hrun) as Hstatus.
      simpl in Hstatus.
      assert (RunTransaction engine io tx st
              = (command_response f, with_db c (store f),
                 opening st ++ [committer_Begin true] ++ calls
                 ++ [committer_Commit true; db_Execute "VACUUM" ok]
                 ++ (if ok then [] else [BLOG "Error executing VACUUM"]))) as ->.
      { unfold RunTransaction.
        by rewrite (opened_guard _ _ Hopen), Hsole, Hbegin, Hrun, Hcommit,
          Hflag, Hexec. }
      split; [done|]. split; [done|]. simpl.
      destruct (inside_not_close calls Hinside) as (_ & Hroll & _).
      assert (committer_Rollback ∉ opening st) as Hopening.
      { unfold opening. destruct (db_is_open st); set_solver. }
      destruct ok; set_solver.
Qed.

End StoreFacts.

(* ===================================================================== *)
(** ** The store on concrete transactions *)
(* ===================================================================== *)

Section StoreRuns.
Import ledger examples.


Lemma uninitialized_store_commands_witness :
  run_command (journal_engine []) all_fine (transaction 3 2 [])
    (cmd EXECUTE "CREATE TABLE t(x)") (first_frame fresh)
  = (INITIALIZATION_ERROR, first_frame fresh, []).
Proof.
  destruct (uninitialized_store_commands (journal_engine []) all_fine
              (transaction 3 2 []) (cmd EXECUTE "CREATE TABLE t(x)")
              (first_frame fresh) eq_refl) as (_ & H & _).
  apply H. right. left. reflexivity.
Defined.

(** VACUUM is neither INITIALIZE nor CLOSE and is answered RESPONSE_OK on a
    store that was never initialised, which stays uninitialised. *)
Lemma vacuum_succeeds_uninitialized :
  let tx := transaction 3 2 [cmd VACUUM ""] in
  initialized_ fresh = false
  ∧ mojom.type (cmd VACUUM "") ≠ INITIALIZE
  ∧ mojom.type (cmd VACUUM "") ≠ CLOSE
  ∧ (run_command (journal_engine []) all_fine tx (cmd VACUUM "")
       (first_frame fresh)).1.1 = RESPONSE_OK
  ∧ status (RunTransaction (journal_engine []) all_fine tx fresh).1.1
    = RESPONSE_OK
  ∧ initialized_ (RunTransaction (journal_engine []) all_fine tx fresh).1.2
    = false.
Proof. repeat split; done. Qed.

Lemma Migrate_overwrites_versions_witness :
  MetaTable_GetVersionNumber (db_ (Migrate 5 4 initialised).1.2) = 5
  ∧ MetaTable_GetCompatibleVersionNumber (db_ (Migrate 5 4 initialised).1.2) = 4.
Proof.
  destruct (Migrate_overwrites_versions (journal_engine []) 5 4 initialised
              eq_refl) as (_ & Hv & Hcv & _).
  split; [exact Hv | exact Hcv].
Defined.

(** A store is initialised at version 3 (compatible with 2) by a first
    transaction and sent MIGRATE by a second one numbered 2 (compatible
    with 1): both transactions are answered RESPONSE_OK, and the stored
    numbers, 3 and 2 after the first, are 2 and 1 after the second. *)
Lemma migrate_lowers_stored_versions :
  let first := (all_fine, transaction 3 2 [cmd INITIALIZE ""]) in
  let second := (all_fine, transaction 2 1 [cmd MIGRATE ""]) in
  let before := RunTransactions (journal_engine []) [first] fresh in
  let after := RunTransactions (journal_engine []) [first; second] fresh in
  status (RunTransaction (journal_engine []) second.1 second.2 before).1.1
  = RESPONSE_OK
  ∧ MetaTable_GetVersionNumber (db_ before) = 3
  ∧ MetaTable_GetCompatibleVersionNumber (db_ before) = 2
  ∧ MetaTable_GetVersionNumber (db_ after) = 2
  ∧ MetaTable_GetCompatibleVersionNumber (db_ after) = 1.
Proof. vm_compute. repeat split; reflexivity. Qed.



(** [RUN, VACUUM, VACUUM] with an engine whose VACUUM fails: the answer is
    RESPONSE_OK, the insert stays, and the one vacuum comes after the
    commit. *)
Lemma vacuum_runs_once_after_commit_witness :
  let tx := transaction 3 2 [cmd RUN "INSERT"; cmd VACUUM ""; cmd VACUUM ""] in
  let r := RunTransaction (journal_engine ["VACUUM"]) all_fine tx initialised in
  status r.1.1 = RESPONSE_OK
  ∧ tables (db_ r.1.2) = ["INSERT"; "VACUUM"]
  ∧ r.2 = [committer_Begin true; statement_Run "INSERT" [] true;
           committer_Commit true; db_Execute "VACUUM" false;
           BLOG "Error executing VACUUM"].
Proof.
  intros tx r.
  edestruct (vacuum_runs_once_after_commit (journal_engine ["VACUUM"])
               all_fine tx initialised) as (_ & _ & _ & _ & H);
    [reflexivity | vm_compute; reflexivity |].
  destruct (H eq_refl eq_refl) as (_ & _ & Hok).
  edestruct (Hok eq_refl eq_refl) as (Hrun & Hs & _); [vm_compute; reflexivity|].
  split; [exact Hs|]. unfold r. rewrite Hrun. split; reflexivity.
Defined.

End StoreRuns.

(* ===================================================================== *)
(** ** Properties of the state migration *)
(* ===================================================================== *)

Section MigrationFacts.
Import state.
Context {Table : Type}.
Variable ledger_ : Collaborators Table.

(** What makes [ParseWalletJSON] give up. *)
Lemma ParseWalletJSON_None data :
  ParseWalletJSON ledger_ data = None
  ↔ JSONReader_Read ledger_ data = None
    ∨ ∃ root, JSONReader_Read ledger_ data = Some root
        ∧ (is_dict root = false
           ∨ FindStringKey "payment_id" root = None
           ∨ FindStringKey "recovery_seed" root = None
           ∨ ∃ seed, FindStringKey "recovery_seed" root = Some seed
               ∧ Base64Decode ledger_ seed = None).
Proof.
  unfold ParseWalletJSON.
  destruct (JSONReader_Read ledger_ data) as [root|]; [|by split; auto].
  split.
  - intros H. right. exists root. split; [done|].
    destruct (is_dict root); simpl in H; [|by left].
    destruct (FindStringKey "payment_id" root); [|by right; left].
    destruct (FindStringKey "recovery_seed" root) as [seed|];
      [|by right; right; left].
    destruct (Base64Decode ledger_ seed) eqn:Hseed; [done|].
    right; right; right. by exists seed.
  - intros [?|(root' & ? & H)]; [done|]. simplify_eq.
    destruct H as [->|[->|[->|(seed & -> & ->)]]]; simpl; try done;
      repeat case_match; done.
Qed.

(** C5. [Migrate] invokes its callback once, with LEDGER_OK, whatever the
    preference value, the decryption, the parse and the write to the wallet
    table do: for an empty value; for a value that does not decrypt; for a
    text that does not parse (no JSON dictionary, no payment id, no
    recovery seed, a seed that is not base64); and after the write,
    whether it reports success or failure.  In the first three cases the
    wallet table is left alone. *)
Theorem Migrate_always_reports_ok pref_data (table : Table) :
  callback (Migrate ledger_ pref_data table) = [LEDGER_OK]
  ∧ (pref_data = "" →
     Migrate ledger_ pref_data table
     = {| callback := [LEDGER_OK]; wallet_table := table; logged := [] |})
  ∧ (pref_data ≠ "" → Base64DecryptString ledger_ pref_data = None →
     callback (Migrate ledger_ pref_data table) = [LEDGER_OK]
     ∧ wallet_table (Migrate ledger_ pref_data table) = table)
  ∧ (∀ json, pref_data ≠ "" →
       Base64DecryptString ledger_ pref_data = Some json →
       ParseWalletJSON ledger_ json = None →
       callback (Migrate ledger_ pref_data table) = [LEDGER_OK]
       ∧ wallet_table (Migrate ledger_ pref_data table) = table)
  ∧ (∀ json wallet success saved, pref_data ≠ "" →
       Base64DecryptString ledger_ pref_data = Some json →
       ParseWalletJSON ledger_ json = Some wallet →
       SaveNew ledger_ (payment_id wallet) (recovery_seed wallet) table
       = (success, saved) →
       callback (Migrate ledger_ pref_data table) = [LEDGER_OK]
       ∧ wallet_table (Migrate ledger_ pref_data table) = saved)
  ∧ (∀ json,
       ParseWalletJSON ledger_ json = None
       ↔ JSONReader_Read ledger_ json = None
         ∨ ∃ root, JSONReader_Read ledger_ json = Some root
             ∧ (is_dict root = false
                ∨ FindStringKey "payment_id" root = None
                ∨ FindStringKey "recovery_seed" root = None
                ∨ ∃ seed, FindStringKey "recovery_seed" root = Some seed
                    ∧ Base64Decode ledger_ seed = None)).
Proof.
  split; [|split; [|split; [|split; [|split]]]];
    [| | | | |apply ParseWalletJSON_None]; unfold Migrate, on_saved.
  - repeat case_match; done.
  - intros ->. done.
  - intros Hne Hdec. rewrite Hdec. by case_decide.
  - intros json Hne Hdec Hparse. rewrite Hdec, Hparse. by case_decide.
  - intros json wallet success saved Hne Hdec Hparse Hsave.
    rewrite Hdec, Hparse, Hsave. by case_decide.
Qed.

End MigrationFacts.

(** A legacy value that decrypts and parses, with a wallet table that
    refuses the write: LEDGER_OK all the same. *)
Lemma Migrate_always_reports_ok_witness :
  state.callback
    (state.Migrate (examples.migration_collaborators false) "{wallet}" [])
  = [state.LEDGER_OK]
  ∧ state.wallet_table
      (state.Migrate (examples.migration_collaborators false) "{wallet}" [])
    = [].
Proof.
  destruct (Migrate_always_reports_ok (examples.migration_collaborators false)
              "{wallet}" []) as (_ & _ & _ & _ & H & _).
  eapply (H "{wallet}"); [done | reflexivity | reflexivity | reflexivity].
Defined.

(* ===================================================================== *)
(** ** Properties of the wallet authorizer *)
(* ===================================================================== *)

Section AuthorizationFacts.
Import state uphold.

(** C2. For a stored wallet that is VERIFIED, [WalletAuthorization] fails
    with LEDGER_ERROR whatever its arguments and whatever the custodian
    would answer; it sends nothing to the token endpoint and the stored
    wallet, its status with it, is as before. *)
Theorem verified_wallet_is_not_reauthorized custodian
    (args : gmap string string) (wallet : ExternalWallet) :
  status wallet = VERIFIED →
  result (WalletAuthorization custodian args (Some wallet)) = LEDGER_ERROR
  ∧ stored (WalletAuthorization custodian args (Some wallet)) = Some wallet
  ∧ status <$> stored (WalletAuthorization custodian args (Some wallet))
    = Some VERIFIED
  ∧ exchanged (WalletAuthorization custodian args (Some wallet)) = [].
Proof.
  intros Hstatus. unfold WalletAuthorization.
  rewrite decide_True by done. simpl. by rewrite Hstatus.
Qed.

(** The arguments [{code, state}]. *)
Lemma code_and_state_lookup (code state : string) :
  ({[ "code" := code; "state" := state ]} : gmap string string)
    !! "error_description" = None
  ∧ ({[ "code" := code; "state" := state ]} : gmap string string)
      !! "code" = Some code
  ∧ ({[ "code" := code; "state" := state ]} : gmap string string)
      !! "state" = Some state.
Proof.
  split; [|split].
  - rewrite lookup_insert_ne by done. by apply lookup_singleton_ne.
  - apply lookup_insert_eq.
  - rewrite lookup_insert_ne by done. apply lookup_singleton_eq.
Qed.

(** C3. When the state argument differs from the stored linking nonce and
    the code is not empty, [WalletAuthorization] called with the code and
    the state fails with LEDGER_ERROR, sends nothing to the token endpoint
    and leaves the stored wallet as it is. *)
Theorem nonce_mismatch_is_refused custodian (code state : string)
    (wallet : ExternalWallet) :
  code ≠ "" →
  one_time_string wallet ≠ state →
  result (WalletAuthorization custodian
            {[ "code" := code; "state" := state ]} (Some wallet))
  = LEDGER_ERROR
  ∧ exchanged (WalletAuthorization custodian
                 {[ "code" := code; "state" := state ]} (Some wallet)) = []
  ∧ stored (WalletAuthorization custodian
              {[ "code" := code; "state" := state ]} (Some wallet))
    = Some wallet.
Proof.
  intros Hcode Hnonce. unfold WalletAuthorization.
  destruct (code_and_state_lookup code state) as (-> & -> & ->). simpl.
  destruct (decide (status wallet = VERIFIED)); [done|].
  rewrite (decide_False (P := code = "")) by done.
  destruct (decide (state = "")); [done|].
  rewrite decide_False by done. done.
Qed.

(** C9. When the token exchange takes place and the custodian answers it
    with an error description, the result is NOT_FOUND for the description
    "User does not meet minimum requirements" and LEDGER_ERROR for every
    other one, and the stored wallet is as before.  The same holds when the
    description comes with the callback arguments of a wallet that is not
    VERIFIED, as in the test table. *)
Theorem ineligibility_is_not_found custodian (args : gmap string string)
    (wallet : ExternalWallet) :
  (∀ code message,
     exchanged (WalletAuthorization custodian args (Some wallet)) = [code] →
     post_oauth custodian code = error_description message →
     (message = "User does not meet minimum requirements" →
      result (WalletAuthorization custodian args (Some wallet)) = NOT_FOUND)
     ∧ (message ≠ "User does not meet minimum requirements" →
        result (WalletAuthorization custodian args (Some wallet)) = LEDGER_ERROR)
     ∧ stored (WalletAuthorization custodian args (Some wallet)) = Some wallet)
  ∧ (∀ message,
       status wallet ≠ VERIFIED →
       args !! "error_description" = Some message →
       (message = "User does not meet minimum requirements" →
        result (WalletAuthorization custodian args (Some wallet)) = NOT_FOUND)
       ∧ (message ≠ "User does not meet minimum requirements" →
          result (WalletAuthorization custodian args (Some wallet)) = LEDGER_ERROR)
       ∧ stored (WalletAuthorization custodian args (Some wallet)) = Some wallet
       ∧ exchanged (WalletAuthorization custodian args (Some wallet)) = []).
Proof.
  split.
  - intros code message. unfold WalletAuthorization.
    destruct (decide (status wallet = VERIFIED)); [done|].
    destruct (args !! "error_description"); [done|].
    destruct (decide (default "" (args !! "code") = "")); [done|].
    destruct (decide (default "" (args !! "state") = "")); [done|].
    destruct (decide (default "" (args !! "state") = one_time_string wallet));
      [|done].
    destruct (post_oauth custodian (default "" (args !! "code")))
      as [t|message'|http] eqn:Hanswer; simpl.
    + destruct (decide (t = "")); simpl.
      * intros ? Hpost. simplify_eq. congruence.
      * destruct (SetWallet_succeeds custodian); simpl;
          intros ? Hpost; simplify_eq; congruence.
    + intros ? Hpost. simplify_eq. rewrite Hanswer in Hpost. simplify_eq.
      unfold reported, kNotEligible. repeat split; intros; by case_decide.
    + intros ? Hpost. simplify_eq. congruence.
  - intros message Hstatus Hargs. unfold WalletAuthorization.
    rewrite decide_False by done. rewrite Hargs. simpl.
    unfold reported, kNotEligible. repeat split; intros; by case_decide.
Qed.

End AuthorizationFacts.

Section AuthorizationRuns.
Import state uphold examples.

Lemma verified_wallet_is_not_reauthorized_witness :
  result (WalletAuthorization (test_custodian (access_token "access_token") true)
            {[ "code" := "code"; "state" := "" ]} (Some verified_wallet))
  = LEDGER_ERROR.
Proof.
  by destruct (verified_wallet_is_not_reauthorized
                 (test_custodian (access_token "access_token") true)
                 {[ "code" := "code"; "state" := "" ]} verified_wallet eq_refl)
    as (H & _).
Defined.

Lemma nonce_mismatch_is_refused_witness :
  result (WalletAuthorization (test_custodian (access_token "access_token") true)
            {[ "code" := "code"; "state" := "mismatch" ]} (Some test_wallet))
  = LEDGER_ERROR
  ∧ stored (WalletAuthorization (test_custodian (access_token "access_token") true)
              {[ "code" := "code"; "state" := "mismatch" ]} (Some test_wallet))
    = Some test_wallet.
Proof.
  destruct (nonce_mismatch_is_refused
              (test_custodian (access_token "access_token") true)
              "code" "mismatch" test_wallet) as (Hr & _ & Hw); [done | done |].
  split; [exact Hr | exact Hw].
Defined.

Lemma ineligibility_is_not_found_witness :
  result (WalletAuthorization
            (test_custodian
               (error_description "User does not meet minimum requirements") true)
            {[ "code" := "code"; "state" := "one_time_string" ]}
            (Some test_wallet))
  = NOT_FOUND.
Proof.
  destruct (ineligibility_is_not_found
              (test_custodian
                 (error_description "User does not meet minimum requirements") true)
              {[ "code" := "code"; "state" := "one_time_string" ]} test_wallet)
    as (H & _).
  destruct (H "code" "User does not meet minimum requirements") as (Hr & _);
    [vm_compute; reflexivity | reflexivity |].
  by apply Hr.
Defined.

(** The rows of the authorization test table that the model can be run on,
    with the results and the statuses the table expects. *)
Lemma authorization_test_table :
  let ok := test_custodian (access_token "access_token") true in
  let not_connected :=
    {| type := ""; status := NOT_CONNECTED; address := ""; token := "";
       one_time_string := "" |} in
  let run c a w := WalletAuthorization c a w in
  let outcome o := (result o, status <$> stored o) in
  (* 00 *) outcome (run ok ∅ None) = (LEDGER_ERROR, None)
  (* 01 *) ∧ outcome (run ok ∅ (Some verified_wallet))
             = (LEDGER_ERROR, Some VERIFIED)
  (* 02 *) ∧ outcome (run (test_custodian (access_token "access_token") false)
                       ∅ (Some not_connected))
             = (LEDGER_ERROR, Some NOT_CONNECTED)
  (* 03 *) ∧ outcome (run ok {[ "error_description" :=
                       "User does not meet minimum requirements" ]}
                       (Some not_connected))
             = (NOT_FOUND, Some NOT_CONNECTED)
  (* 04 *) ∧ outcome (run ok {[ "error_description" := "some other reason" ]}
                       (Some not_connected))
             = (LEDGER_ERROR, Some NOT_CONNECTED)
  (* 05 *) ∧ outcome (run ok ∅ (Some not_connected))
             = (LEDGER_ERROR, Some NOT_CONNECTED)
  (* 06 *) ∧ outcome (run ok {[ "code" := "" ]} (Some not_connected))
             = (LEDGER_ERROR, Some NOT_CONNECTED)
  (* 07 *) ∧ outcome (run ok {[ "code" := "code"; "state" := "" ]}
                       (Some not_connected))
             = (LEDGER_ERROR, Some NOT_CONNECTED)
  (* 08 *) ∧ outcome (run ok {[ "code" := "code"; "state" := "mismatch" ]}
                       (Some test_wallet))
             = (LEDGER_ERROR, Some NOT_CONNECTED)
  (* 11 *) ∧ outcome (run (test_custodian (transport_failure 500) true)
                       {[ "code" := "code"; "state" := "one_time_string" ]}
                       (Some test_wallet))
             = (LEDGER_ERROR, Some NOT_CONNECTED)
  (* 12 *) ∧ outcome (run (test_custodian (access_token "") true)
                       {[ "code" := "code"; "state" := "one_time_string" ]}
                       (Some test_wallet))
             = (LEDGER_ERROR, Some NOT_CONNECTED)
  (* 13 *) ∧ outcome (run (test_custodian (access_token "access_token") false)
                       {[ "code" := "code"; "state" := "one_time_string" ]}
                       (Some test_wallet))
             = (LEDGER_ERROR, Some NOT_CONNECTED)
  (* 14 *) ∧ outcome (run ok
                       {[ "code" := "code"; "state" := "one_time_string" ]}
                       (Some test_wallet))
             = (LEDGER_OK, Some PENDING).
Proof. vm_compute. repeat split; reflexivity. Qed.

End AuthorizationRuns.

(* ===================================================================== *)
(** ** Properties of the refill coordinator *)
(* ===================================================================== *)

Section RefillFacts.
Import ads.
Variable target_reserve : nat.
Variable token_generator_ : nat -> list string.
Variable blind : string -> string.

Abbreviation calls_of := (calls target_reserve token_generator_ blind).
Abbreviation call_of := (call target_reserve token_generator_ blind).

Lemma calls_app before : ∀ after r,
  calls_of (before ++ after) r
  = (let '(r1, sent) := calls_of before r in
     let '(r2, sent') := calls_of after r1 in
     (r2, sent ++ sent')).
Proof.
  induction before as [|c before IH]; intros after r; simpl.
  - by destruct (calls_of after r).
  - destruct (call_of c r) as [r1 s1]. rewrite IH.
    destruct (calls_of before r1) as [r2 s2].
    destruct (calls_of after r2) as [r3 s3].
    by rewrite app_assoc.
Qed.

(** One call changes the number of cycles in flight as the flag says. *)
Lemma call_in_flight c r :
  flying r + (if starts_cycle target_reserve c r then 1 else 0)
           - (if ends_cycle c r then 1 else 0)
  = flying (call_of c r).1.
Proof.
  unfold flying.
  destruct c as [wallet|unblinded|[|]|]; simpl;
    unfold MaybeRefill, OnDidRefillUnblindedTokens,
      OnFailedToRefillUnblindedTokens, OnRetry, Refill;
    destruct (is_processing_ r) eqn:Hp; simpl; rewrite ?Hp; try done.
  - destruct (ShouldRefillUnblindedTokens target_reserve r); simpl;
      by rewrite ?Hp.
  - destruct (retry_timer_ r); simpl; by rewrite ?Hp.
  - destruct (retry_timer_ r); simpl; by rewrite ?Hp.
Qed.

Lemma cycles_in_flight_flag cs : ∀ r,
  cycles_in_flight target_reserve token_generator_ blind cs r (flying r)
  = flying (calls_of cs r).1.
Proof.
  induction cs as [|c cs IH]; intros r; simpl; [done|].
  rewrite call_in_flight.
  destruct (call_of c r) as [r1 s1]. simpl. rewrite IH.
  by destruct (calls_of cs r1).
Qed.

(** C4. While a cycle is in flight a call of [MaybeRefill] changes nothing
    and sends nothing, and the rest of the history goes on as if the call
    had not been made.  Over every history of a coordinator that starts
    idle, the cycles started and not yet ended are none or one. *)
Theorem MaybeRefill_in_flight_is_dropped wallet (r : RefillUnblindedTokens) :
  is_processing_ r = true →
  MaybeRefill target_reserve token_generator_ blind wallet r = (r, [])
  ∧ (∀ before after r0,
       (calls_of before r0).1 = r →
       calls_of (before ++ CallMaybeRefill wallet :: after) r0
       = calls_of (before ++ after) r0)
  ∧ (∀ history,
       0 ≤ cycles_in_flight target_reserve token_generator_ blind history idle 0
         ≤ 1
       ∧ (cycles_in_flight target_reserve token_generator_ blind history idle 0
          = 1
          ↔ is_processing_ (calls_of history idle).1 = true)).
Proof.
  intros Hflight.
  assert (MaybeRefill target_reserve token_generator_ blind wallet r = (r, []))
    as Hdrop by (unfold MaybeRefill; by rewrite Hflight).
  split; [done|]. split.
  - intros before after r0 Hbefore. rewrite !calls_app.
    destruct (calls_of before r0) as [r1 s1].
    simpl in Hbefore. subst r1. simpl. rewrite Hdrop.
    by destruct (calls_of after r).
  - intros history.
    pose proof (cycles_in_flight_flag history idle) as H.
    change (flying idle) with 0 in H. rewrite H. unfold flying.
    destruct (is_processing_ (calls_of history idle).1);
      (split; [lia|split; intros; done]).
Qed.

End RefillFacts.

(** A refill is asked for twice in a row with an empty cache and a reserve
    of 3: the second call sends nothing and leaves the coordinator as the
    first left it. *)
Lemma MaybeRefill_in_flight_is_dropped_witness :
  let generator := fun n => replicate n "token" in
  let blind := fun token => String.append "blinded " token in
  let wallet := {| ads.id := "fa5dea51-6af4-44ca-801b-07b6df3dcfe4" |} in
  let r := (ads.MaybeRefill 3 generator blind wallet ads.idle).1 in
  length (ads.MaybeRefill 3 generator blind wallet ads.idle).2 = 1%nat
  ∧ ads.is_processing_ r = true
  ∧ ads.MaybeRefill 3 generator blind {| ads.id := "other" |} r = (r, []).
Proof.
  intros generator blind wallet r. split; [reflexivity|]. split; [reflexivity|].
  by destruct (MaybeRefill_in_flight_is_dropped 3 generator blind
                 {| ads.id := "other" |} r eq_refl) as (H & _).
Defined.

(* ===================================================================== *)
(** ** Further properties of the persistent store *)
(* ===================================================================== *)

Section StoreAnswers.
Import ledger store_view.
Context {Tables : Type}.
Variable engine : Engine Tables.

Lemma with_open_open (st : LedgerDatabase Tables) :
  db_is_open st = true → with_open st = st.
Proof. destruct st as [o c i l]. simpl. by intros ->. Qed.

Lemma run_commands_app io tx pre : ∀ suf (f : Frame Tables),
  run_commands engine io tx (pre ++ suf) f
  = (let '(s, f1, calls1) := run_commands engine io tx pre f in
     if is_ok s then
       let '(s', f2, calls2) := run_commands engine io tx suf f1 in
       (s', f2, calls1 ++ calls2)
     else (s, f1, calls1)).
Proof.
  induction pre as [|c pre IH]; intros suf f; simpl.
  - by destruct (run_commands engine io tx suf f) as [[s f1] t].
  - destruct (run_command engine io tx c f) as [[s1 f1] t1].
    destruct (is_ok s1) eqn:Hok1; simpl; rewrite ?Hok1; [|done]. rewrite IH.
    destruct (run_commands engine io tx pre f1) as [[s2 f2] t2].
    destruct (is_ok s2) eqn:Hok2; simpl; rewrite ?Hok2; [|done].
    destruct (run_commands engine io tx suf f2) as [[s3 f3] t3].
    simpl. by rewrite ?Hok2, ?app_assoc.
Qed.

Lemma is_ok_true s : is_ok s = true ↔ s = RESPONSE_OK.
Proof. by destruct s. Qed.

(** X1. [RunTransaction] answers RESPONSE_OK exactly when the database is
    or gets open and either the transaction is one CLOSE command, or the
    transaction begins, every command answers RESPONSE_OK and the commit
    succeeds.  It answers TRANSACTION_ERROR exactly when the begin fails or
    the commit fails after all commands succeeded, INITIALIZATION_ERROR
    exactly when the database does not open or the loop ends on that
    status, and COMMAND_ERROR exactly when the loop ends on that status. *)
Theorem RunTransaction_status io tx (st : LedgerDatabase Tables) :
  (status (RunTransaction engine io tx st).1.1 = RESPONSE_OK
   ↔ (db_is_open st || Open_succeeds io) = true
     ∧ (is_sole_close (commands tx) = true
        ∨ (Begin_succeeds io = true
           ∧ (run_commands engine io tx (commands tx) (first_frame st)).1.1
             = RESPONSE_OK
           ∧ Commit_succeeds io = true)))
  ∧ (status (RunTransaction engine io tx st).1.1 = TRANSACTION_ERROR
     ↔ (db_is_open st || Open_succeeds io) = true
       ∧ is_sole_close (commands tx) = false
       ∧ (Begin_succeeds io = false
          ∨ ((run_commands engine io tx (commands tx) (first_frame st)).1.1
             = RESPONSE_OK
             ∧ Commit_succeeds io = false)))
  ∧ (status (RunTransaction engine io tx st).1.1 = INITIALIZATION_ERROR
     ↔ (db_is_open st || Open_succeeds io) = false
       ∨ (is_sole_close (commands tx) = false
          ∧ Begin_succeeds io = true
          ∧ (run_commands engine io tx (commands tx) (first_frame st)).1.1
            = INITIALIZATION_ERROR))
  ∧ (status (RunTransaction engine io tx st).1.1 = COMMAND_ERROR
     ↔ (db_is_open st || Open_succeeds io) = true
       ∧ is_sole_close (commands tx) = false
       ∧ Begin_succeeds io = true
       ∧ (run_commands engine io tx (commands tx) (first_frame st)).1.1
         = COMMAND_ERROR).
Proof.
  pose proof (run_commands_status engine io tx (commands tx) (first_frame st))
    as Hkinds.
  unfold RunTransaction.
  destruct (run_commands engine io tx (commands tx) (first_frame st))
    as [[s f] calls] eqn:Hrun.
  pose proof (run_commands_keeps_status engine io tx _ _ _ _ _ Hrun) as Hkeep.
  simpl in Hkinds, Hkeep.
  destruct (db_is_open st), (Open_succeeds io),
    (is_sole_close (commands tx)), (Begin_succeeds io); simpl;
    try (intuition congruence).
  all: destruct Hkinds as [->|[->| ->]]; simpl;
    destruct (Commit_succeeds io); simpl;
    try (destruct (vacuum_requested f); simpl);
    try (destruct (sql_Execute engine "VACUUM" (db_ (store f))) as [ok c];
         simpl);
    rewrite ?Hkeep; intuition congruence.
Qed.

(** *** Initialised means open *)

Lemma run_command_listener io tx c (f : Frame Tables) s f' calls :
  run_command engine io tx c f = (s, f', calls) →
  (initialized_ (store f) = true → memory_pressure_listener_ (store f) = true) →
  initialized_ (store f') = true → memory_pressure_listener_ (store f') = true.
Proof.
  intros H Hf. destruct f as [st r v]. simpl in *.
  unfold run_command, Initialize, Read, Execute, Run, Migrate, MetaTable_Init,
    with_db in H.
  repeat case_match; simplify_eq/=; auto.
  all: destruct st; simpl in *; subst; auto; done.
Qed.

Lemma run_commands_listener io tx cmds : ∀ (f : Frame Tables) s f' calls,
  run_commands engine io tx cmds f = (s, f', calls) →
  (initialized_ (store f) = true → memory_pressure_listener_ (store f) = true) →
  initialized_ (store f') = true → memory_pressure_listener_ (store f') = true.
Proof.
  induction cmds as [|c rest IH]; intros f s f' calls H Hf; simpl in H.
  - by simplify_eq.
  - destruct (run_command engine io tx c f) as [[s1 f1] t1] eqn:E1.
    pose proof (run_command_listener io tx c f _ _ _ E1 Hf) as Hf1.
    destruct (is_ok s1).
    + destruct (run_commands engine io tx rest f1) as [[s2 f2] t2] eqn:E2.
      simplify_eq. eauto.
    + by simplify_eq.
Qed.

Lemma RunTransaction_consistent io tx (st : LedgerDatabase Tables) :
  consistent st → consistent (RunTransaction engine io tx st).1.2.
Proof.
  unfold consistent, RunTransaction. intros Hst.
  destruct (negb (db_is_open st) && negb (Open_succeeds io)); [done|].
  destruct (is_sole_close (commands tx)); [done|].
  destruct (Begin_succeeds io); simpl; [|naive_solver].
  destruct (run_commands engine io tx (commands tx) (first_frame st))
    as [[s f] calls] eqn:Hrun.
  pose proof (run_commands_keeps_open engine io tx _ _ _ _ _ Hrun) as Hopen.
  pose proof (run_commands_listener io tx _ _ _ _ _ Hrun) as Hlisten.
  simpl in Hopen, Hlisten.
  assert (initialized_ (store f) = true →
          db_is_open (store f) = true
          ∧ memory_pressure_listener_ (store f) = true) as Hf
    by (split; [done|apply Hlisten; naive_solver]).
  destruct (is_ok s); simpl; [|done].
  destruct (Commit_succeeds io); simpl; [|done].
  destruct (vacuum_requested f); [|done].
  by destruct (sql_Execute engine "VACUUM" (db_ (store f))).
Qed.

(** X2. Over every sequence of transactions, a store that is initialised has
    its connection open and its memory pressure listener created, provided
    this held at the start (as it does for a store that is not
    initialised). *)
Theorem initialised_store_is_open (calls : list (Io * DBTransaction)) :
  ∀ st : LedgerDatabase Tables,
    consistent st → consistent (RunTransactions engine calls st).
Proof.
  induction calls as [|[io tx] rest IH]; intros st Hst; simpl; [done|].
  apply IH. by apply RunTransaction_consistent.
Qed.

(** *** What INITIALIZE answers *)

(** A committed transaction of one command that is not a VACUUM. *)
Lemma RunTransaction_single io tx c (st : LedgerDatabase Tables) f calls :
  commands tx = [c] →
  is_close c = false →
  (db_is_open st || Open_succeeds io) = true →
  Begin_succeeds io = true →
  Commit_succeeds io = true →
  run_command engine io tx c (first_frame st) = (RESPONSE_OK, f, calls) →
  vacuum_requested f = false →
  RunTransaction engine io tx st
  = (command_response f, store f,
     opening st ++ [committer_Begin true] ++ calls ++ [committer_Commit true]).
Proof.
  intros Hcmds Hclose Hopen Hbegin Hcommit Hrun Hflag.
  unfold RunTransaction.
  rewrite (opened_guard _ _ Hopen), Hcmds. simpl.
  rewrite Hclose, Hbegin, Hrun. simpl. rewrite Hcommit, Hflag. simpl.
  by rewrite app_nil_r.
Qed.


(** INITIALIZE on a store that is initialised: nothing is written and the
    stored version is the answer. *)
Lemma run_command_INITIALIZE_again io tx c (st : LedgerDatabase Tables) :
  mojom.type c = INITIALIZE →
  initialized_ st = true →
  ∃ f calls,
    run_command engine io tx c (first_frame st) = (RESPONSE_OK, f, calls)
    ∧ vacuum_requested f = false
    ∧ db_ (store f) = db_ st
    ∧ initialized_ (store f) = true
    ∧ answered_version (command_response f)
      = Some (MetaTable_GetVersionNumber (db_ st))
    ∧ status (command_response f) = RESPONSE_OK.
Proof.
  intros Hty Hinit. unfold run_command, Initialize. rewrite Hty. simpl.
  rewrite Hinit. by eexists _, _.
Qed.



Lemma run_command_MIGRATE io tx c (st : LedgerDatabase Tables) :
  mojom.type c = MIGRATE →
  initialized_ st = true →
  MetaTable_DoesTableExist (db_ st) = true →
  ∃ f calls,
    run_command engine io tx c (first_frame st) = (RESPONSE_OK, f, calls)
    ∧ vacuum_requested f = false
    ∧ db_is_open (store f) = true
    ∧ initialized_ (store f) = true
    ∧ status (command_response f) = RESPONSE_OK
    ∧ result (command_response f) = None
    ∧ MetaTable_GetVersionNumber (db_ (store f)) = version tx
    ∧ MetaTable_GetCompatibleVersionNumber (db_ (store f))
      = compatible_version tx
    ∧ tables (db_ (store f)) = tables (db_ st).
Proof.
  intros Hty Hinit Hexists. unfold run_command, Migrate. rewrite Hty. simpl.
  rewrite Hinit. eexists _, _. split; [reflexivity|]. simpl.
  unfold MetaTable_GetVersionNumber, MetaTable_GetCompatibleVersionNumber,
    MetaTable_SetCompatibleVersionNumber, MetaTable_SetVersionNumber,
    MetaTable_SetValue, MetaTable_DoesTableExist in *.
  destruct (meta (db_ st)) as [rows|]; [|done]. simpl.
  rewrite lookup_insert_ne by done. by rewrite !lookup_insert_eq.
Qed.

(** X4. After a committed transaction of one MIGRATE on an initialised
    store that has its meta table, a transaction of one INITIALIZE answers
    the version number of the MIGRATE transaction, whatever numbers it
    carries itself; neither transaction touches the caller's tables. *)
Theorem INITIALIZE_answers_migrated_version io1 io2 tx1 tx2 c1 c2
    (st : LedgerDatabase Tables) :
  initialized_ st = true →
  db_is_open st = true →
  MetaTable_DoesTableExist (db_ st) = true →
  commands tx1 = [c1] → mojom.type c1 = MIGRATE →
  commands tx2 = [c2] → mojom.type c2 = INITIALIZE →
  Begin_succeeds io1 = true → Commit_succeeds io1 = true →
  Begin_succeeds io2 = true → Commit_succeeds io2 = true →
  status (RunTransaction engine io1 tx1 st).1.1 = RESPONSE_OK
  ∧ status (RunTransaction engine io2 tx2
              (RunTransaction engine io1 tx1 st).1.2).1.1 = RESPONSE_OK
  ∧ answered_version
      (RunTransaction engine io2 tx2
         (RunTransaction engine io1 tx1 st).1.2).1.1
    = Some (version tx1)
  ∧ tables (db_ (RunTransaction engine io2 tx2
                   (RunTransaction engine io1 tx1 st).1.2).1.2)
    = tables (db_ st).
Proof.
  intros Hinit Hopen Hexists Hcmds1 Hty1 Hcmds2 Hty2 Hbegin1 Hcommit1
    Hbegin2 Hcommit2.
  assert (is_close c1 = false) as Hclose1 by (unfold is_close; by rewrite Hty1).
  assert (is_close c2 = false) as Hclose2 by (unfold is_close; by rewrite Hty2).
  destruct (run_command_MIGRATE io1 tx1 c1 st Hty1 Hinit Hexists)
    as (f1 & calls1 & Hrun1 & Hflag1 & Hopen1 & Hinit1 & Hstatus1 & _ & Hv & _
        & Htables).
  rewrite (RunTransaction_single io1 tx1 c1 st f1 calls1)
    by (try done; by rewrite Hopen).
  simpl.
  destruct (run_command_INITIALIZE_again io2 tx2 c2 (store f1) Hty2 Hinit1)
    as (f2 & calls2 & Hrun2 & Hflag2 & Hdb2 & _ & Hanswer2 & Hstatus2).
  rewrite (RunTransaction_single io2 tx2 c2 (store f1) f2 calls2)
    by (try done; by rewrite Hopen1).
  simpl. by rewrite Hanswer2, Hv, Hdb2.
Qed.

(** *** The records of a READ *)

(** X5. A READ on an initialised store always answers RESPONSE_OK and
    replaces the result of the response by one record per row fetched, in
    the order fetched; every record has one field per record binding of
    the command, and the field at a position is read from the column of
    that position with the accessor of the binding's type. *)
Theorem Read_records (cmd : DBCommand) (response : DBCommandResponse)
    (st : LedgerDatabase Tables) :
  initialized_ st = true →
  ∃ records,
    (Read engine cmd response st).1.1.1 = RESPONSE_OK
    ∧ (Read engine cmd response st).1.1.2
      = set_result (result_records records) response
    ∧ length records
      = length (sql_Step engine (command cmd) (bind_all (bindings cmd))
                  (db_ st)).1
    ∧ ∀ i row,
        (sql_Step engine (command cmd) (bind_all (bindings cmd)) (db_ st)).1
          !! i = Some row →
        ∃ record,
          records !! i = Some record
          ∧ length (fields record) = length (record_bindings cmd)
          ∧ ∀ column,
              fields record !! column
              = column_value row column <$> record_bindings cmd !! column.
Proof.
  intros Hinit. unfold Read. rewrite Hinit.
  destruct (sql_Step engine (command cmd) (bind_all (bindings cmd)) (db_ st))
    as [rows c]. simpl.
  eexists. split; [done|]. split; [done|]. split; [by rewrite length_fmap|].
  intros i row Hrow. eexists. split.
  { rewrite list_lookup_fmap, Hrow. done. }
  unfold CreateRecord. simpl. split; [by rewrite length_imap|].
  intros column. rewrite list_lookup_imap.
  by destruct (record_bindings cmd !! column) as [[]|].
Qed.

(** *** The result of the response *)

Lemma run_command_result io tx c (f : Frame Tables) s f' calls :
  run_command engine io tx c f = (s, f', calls) →
  (has_result c = false → command_response f' = command_response f)
  ∧ (is_Some (result (command_response f)) →
     is_Some (result (command_response f')))
  ∧ (has_result c = true → s = RESPONSE_OK →
     is_Some (result (command_response f'))).
Proof.
  intros H. destruct f as [st r v]. unfold has_result.
  unfold run_command, Initialize, Read, Execute, Run, Migrate, MetaTable_Init
    in H.
  repeat case_match; simplify_eq/=; repeat split; try done; eauto.
Qed.

Lemma run_commands_no_result io tx cmds : ∀ (f : Frame Tables),
  forallb (λ c, negb (has_result c)) cmds = true →
  command_response (run_commands engine io tx cmds f).1.2 = command_response f.
Proof.
  induction cmds as [|c rest IH]; intros f Hall; simpl in *; [done|].
  apply andb_true_iff in Hall as [Hc Hrest]. apply negb_true_iff in Hc.
  destruct (run_command engine io tx c f) as [[s1 f1] t1] eqn:E1.
  destruct (run_command_result io tx c f _ _ _ E1) as (Hsame & _ & _).
  destruct (is_ok s1); simpl; [|by apply Hsame].
  specialize (IH f1 Hrest).
  destruct (run_commands engine io tx rest f1) as [[s2 f2] t2].
  simpl in *. rewrite IH. by apply Hsame.
Qed.

Lemma run_commands_result io tx cmds : ∀ (f : Frame Tables) f' calls,
  run_commands engine io tx cmds f = (RESPONSE_OK, f', calls) →
  (is_Some (result (command_response f'))
   ↔ is_Some (result (command_response f)) ∨ existsb has_result cmds = true).
Proof.
  induction cmds as [|c rest IH]; intros f f' calls Hrun; simpl in *.
  - simplify_eq. naive_solver.
  - destruct (run_command engine io tx c f) as [[s1 f1] t1] eqn:E1.
    destruct (run_command_result io tx c f _ _ _ E1) as (Hsame & Hkeep & Hnew).
    destruct (is_ok s1) eqn:Hok; [|by simplify_eq].
    apply is_ok_true in Hok. subst s1.
    destruct (run_commands engine io tx rest f1) as [[s2 f2] t2] eqn:E2.
    simplify_eq. rewrite (IH _ _ _ E2).
    destruct (has_result c) eqn:Hc; simpl.
    + split; [auto|]. intros _. left. by apply Hnew.
    + rewrite Hsame by done. done.
Qed.

(** X6. The response of a transaction none of whose commands is an
    INITIALIZE or a READ has no result, whatever its status.  The response
    of a transaction answered RESPONSE_OK has a result exactly when one of
    its commands is an INITIALIZE or a READ. *)
Theorem response_result io tx (st : LedgerDatabase Tables) :
  (forallb (λ c, negb (has_result c)) (commands tx) = true →
   result (RunTransaction engine io tx st).1.1 = None)
  ∧ (status (RunTransaction engine io tx st).1.1 = RESPONSE_OK →
     (is_Some (result (RunTransaction engine io tx st).1.1)
      ↔ existsb has_result (commands tx) = true)).
Proof.
  pose proof (run_commands_no_result io tx (commands tx) (first_frame st))
    as Hnone.
  pose proof (run_commands_result io tx (commands tx) (first_frame st))
    as Hsome.
  unfold RunTransaction.
  destruct (negb (db_is_open st) && negb (Open_succeeds io)); [by split|].
  destruct (is_sole_close (commands tx)) eqn:Hsole.
  { simpl. split; [done|]. intros _.
    destruct (commands tx) as [|c [|d l]]; simpl in *; try done.
    unfold is_close in Hsole. unfold has_result.
    destruct (mojom.type c); try done. }
  destruct (Begin_succeeds io); simpl; [|split; [done|by intros]].
  destruct (run_commands engine io tx (commands tx) (first_frame st))
    as [[s f] calls]. simpl in Hnone.
  destruct s; simpl.
  - specialize (Hsome f calls eq_refl). simpl in Hsome.
    assert (is_Some (result (command_response f))
            ↔ existsb has_result (commands tx) = true) as Hiff.
    { rewrite Hsome. split; [|by right]. intros [[? ?]|?]; done. }
    destruct (Commit_succeeds io); simpl.
    + destruct (vacuum_requested f);
        [destruct (sql_Execute engine "VACUUM" (db_ (store f)))|]; simpl;
        (split; [intros H; by rewrite (Hnone H)|done]).
    + split; [intros H; by rewrite (Hnone H)|done].
  - split; [intros H; by rewrite (Hnone H)|done].
  - split; [intros H; by rewrite (Hnone H)|done].
  - split; [intros H; by rewrite (Hnone H)|done].
Qed.

(** *** One transaction or two *)

(** What a command does to the store depends on the store alone. *)
Lemma run_command_same_store io tx c (f g : Frame Tables) :
  store f = store g →
  (run_command engine io tx c f).1.1 = (run_command engine io tx c g).1.1
  ∧ store (run_command engine io tx c f).1.2
    = store (run_command engine io tx c g).1.2
  ∧ (run_command engine io tx c f).2 = (run_command engine io tx c g).2.
Proof.
  intros Hst. destruct f as [st r v], g as [st' r' v']. simpl in *. subst st'.
  unfold run_command, Initialize, Read, Execute, Run, Migrate, MetaTable_Init.
  destruct (mojom.type c); simpl; repeat case_match; simplify_eq/=; done.
Qed.

Lemma run_commands_same_store io tx cmds : ∀ (f g : Frame Tables),
  store f = store g →
  (run_commands engine io tx cmds f).1.1 = (run_commands engine io tx cmds g).1.1
  ∧ store (run_commands engine io tx cmds f).1.2
    = store (run_commands engine io tx cmds g).1.2
  ∧ (run_commands engine io tx cmds f).2 = (run_commands engine io tx cmds g).2.
Proof.
  induction cmds as [|c rest IH]; intros f g Hst; simpl; [done|].
  destruct (run_command_same_store io tx c f g Hst) as (Hs & Hst1 & Hcalls).
  destruct (run_command engine io tx c f) as [[s1 f1] t1].
  destruct (run_command engine io tx c g) as [[s1' g1] t1'].
  simpl in *. subst s1' t1'.
  destruct (is_ok s1); [|done].
  specialize (IH f1 g1 Hst1).
  destruct (run_commands engine io tx rest f1) as [[s2 f2] t2].
  destruct (run_commands engine io tx rest g1) as [[s2' g2] t2'].
  simpl in *. destruct IH as (-> & -> & ->). done.
Qed.

(** A transaction answered RESPONSE_OK that is not one CLOSE command has
    begun, run all its commands and committed. *)
Lemma RunTransaction_ok_inv io tx (st : LedgerDatabase Tables) :
  status (RunTransaction engine io tx st).1.1 = RESPONSE_OK →
  is_sole_close (commands tx) = false →
  (db_is_open st || Open_succeeds io) = true
  ∧ Begin_succeeds io = true
  ∧ Commit_succeeds io = true
  ∧ ∃ f calls,
      run_commands engine io tx (commands tx) (first_frame st)
      = (RESPONSE_OK, f, calls).
Proof.
  unfold RunTransaction. intros H Hsole. rewrite Hsole in H.
  destruct (db_is_open st), (Open_succeeds io); simpl in H; try done;
    (destruct (Begin_succeeds io); simpl in H; [|done]);
    (destruct (run_commands engine io tx (commands tx) (first_frame st))
       as [[s f] calls]);
    (destruct s; simpl in H; try done);
    (destruct (Commit_succeeds io); simpl in H; [|done]);
    repeat split; eauto.
Qed.

(** The store a committed transaction leaves. *)
Lemma RunTransaction_ok_store io tx (st : LedgerDatabase Tables) f calls :
  (db_is_open st || Open_succeeds io) = true →
  is_sole_close (commands tx) = false →
  Begin_succeeds io = true →
  Commit_succeeds io = true →
  run_commands engine io tx (commands tx) (first_frame st)
  = (RESPONSE_OK, f, calls) →
  status (RunTransaction engine io tx st).1.1 = RESPONSE_OK
  ∧ (RunTransaction engine io tx st).1.2
    = (if vacuum_requested f
       then with_db (sql_Execute engine "VACUUM" (db_ (store f))).2 (store f)
       else store f).
Proof.
  intros Hopen Hsole Hbegin Hcommit Hrun.
  pose proof (run_commands_keeps_status engine io tx _ _ _ _ _ Hrun) as Hkeep.
  unfold RunTransaction.
  rewrite (opened_guard _ _ Hopen), Hsole, Hbegin, Hrun. simpl.
  rewrite Hcommit. simpl.
  destruct (vacuum_requested f); [|done].
  by destruct (sql_Execute engine "VACUUM" (db_ (store f))).
Qed.

Lemma app_not_sole_close a b :
  is_sole_close a = false → is_sole_close b = false →
  is_sole_close (a ++ b) = false.
Proof.
  destruct a as [|x [|y a]]; simpl; [done| |done].
  destruct b as [|z b]; simpl; done.
Qed.

(** X7. A transaction cut in two: when the first part holds no VACUUM,
    neither part is one CLOSE command, and the two parts sent one after the
    other (with the same version numbers) are both answered RESPONSE_OK,
    then the whole transaction is answered RESPONSE_OK too and leaves the
    store exactly as the two parts do. *)
Theorem transaction_in_two_parts io tx a b (st : LedgerDatabase Tables) :
  commands tx = a ++ b →
  is_sole_close a = false → is_sole_close b = false →
  existsb is_vacuum a = false →
  status (RunTransaction engine io (with_commands a tx) st).1.1 = RESPONSE_OK →
  status (RunTransaction engine io (with_commands b tx)
            (RunTransaction engine io (with_commands a tx) st).1.2).1.1
  = RESPONSE_OK →
  status (RunTransaction engine io tx st).1.1 = RESPONSE_OK
  ∧ (RunTransaction engine io tx st).1.2
    = (RunTransaction engine io (with_commands b tx)
         (RunTransaction engine io (with_commands a tx) st).1.2).1.2.
Proof.
  intros Hcmds Hsa Hsb Hva Hfirst Hsecond.
  destruct (RunTransaction_ok_inv io (with_commands a tx) st Hfirst Hsa)
    as (Hopen & Hbegin & Hcommit & fa & ca & Hrun_a).
  simpl in Hrun_a. rewrite run_commands_with_commands in Hrun_a.
  pose proof (run_commands_flag engine io tx _ _ _ _ Hrun_a) as Hflag_a.
  rewrite Hva in Hflag_a. simpl in Hflag_a.
  pose proof (run_commands_keeps_open engine io tx _ _ _ _ _ Hrun_a) as Hopen_a.
  simpl in Hopen_a.
  assert ((RunTransaction engine io (with_commands a tx) st).1.2 = store fa)
    as Hst_a.
  { destruct (RunTransaction_ok_store io (with_commands a tx) st fa ca)
      as (_ & ->); try done.
    - simpl. by rewrite run_commands_with_commands.
    - by rewrite Hflag_a. }
  rewrite Hst_a in Hsecond |- *.
  destruct (RunTransaction_ok_inv io (with_commands b tx) (store fa) Hsecond Hsb)
    as (_ & _ & _ & fb & cb & Hrun_b).
  simpl in Hrun_b. rewrite run_commands_with_commands in Hrun_b.
  pose proof (run_commands_flag engine io tx _ _ _ _ Hrun_b) as Hflag_b.
  simpl in Hflag_b.
  destruct (run_commands_same_store io tx b fa (first_frame (store fa)))
    as (Hs & Hst & _).
  { simpl. by rewrite with_open_open. }
  rewrite Hrun_b in Hs, Hst. simpl in Hs, Hst.
  destruct (run_commands engine io tx b fa) as [[s fb'] cb'] eqn:Hrun_b'.
  simpl in Hs, Hst. subst s.
  pose proof (run_commands_flag engine io tx _ _ _ _ Hrun_b') as Hflag_b'.
  rewrite Hflag_a in Hflag_b'. simpl in Hflag_b'.
  assert (run_commands engine io tx (commands tx) (first_frame st)
          = (RESPONSE_OK, fb', ca ++ cb')) as Hrun.
  { rewrite Hcmds, run_commands_app, Hrun_a. simpl. by rewrite Hrun_b'. }
  destruct (RunTransaction_ok_store io tx st fb' (ca ++ cb'))
    as (Hok & ->); try done.
  { rewrite Hcmds. by apply app_not_sole_close. }
  destruct (RunTransaction_ok_store io (with_commands b tx) (store fa) fb cb)
    as (_ & ->); try done.
  { by rewrite Hopen_a. }
  { simpl. by rewrite run_commands_with_commands. }
  split; [done|]. by rewrite Hflag_b, Hflag_b', Hst.
Qed.

(** *** After a CLOSE *)

(** X8. After a transaction of one CLOSE command the store has to be
    initialised again: a following transaction whose first command is a
    READ, an EXECUTE, a RUN or a MIGRATE reopens the database, begins, is
    answered INITIALIZATION_ERROR and is rolled back without a statement
    being run. *)
Theorem commands_after_close io tx io2 tx2 c rest (st : LedgerDatabase Tables) :
  is_sole_close (commands tx) = true →
  (db_is_open st || Open_succeeds io) = true →
  commands tx2 = c :: rest →
  (mojom.type c = READ ∨ mojom.type c = EXECUTE ∨ mojom.type c = RUN
   ∨ mojom.type c = MIGRATE) →
  Open_succeeds io2 = true →
  Begin_succeeds io2 = true →
  status (RunTransaction engine io2 tx2
            (RunTransaction engine io tx st).1.2).1.1 = INITIALIZATION_ERROR
  ∧ (RunTransaction engine io2 tx2 (RunTransaction engine io tx st).1.2).2
    = [db_Open true; committer_Begin true; committer_Rollback]
  ∧ db_ (RunTransaction engine io2 tx2 (RunTransaction engine io tx st).1.2).1.2
    = db_ st
  ∧ initialized_
      (RunTransaction engine io2 tx2 (RunTransaction engine io tx st).1.2).1.2
    = false.
Proof.
  intros Hsole Hopen Hcmds Hty Hopen2 Hbegin2.
  assert ((RunTransaction engine io tx st).1.2
          = {| db_is_open := false; db_ := db_ st; initialized_ := false;
               memory_pressure_listener_ := memory_pressure_listener_ st |})
    as ->.
  { unfold RunTransaction. by rewrite (opened_guard _ _ Hopen), Hsole. }
  assert (is_sole_close (commands tx2) = false) as Hsole2.
  { rewrite Hcmds. destruct rest; [|done]. simpl. unfold is_close.
    by destruct Hty as [->|[->|[->| ->]]]. }
  unfold RunTransaction. simpl. rewrite Hopen2, Hsole2, Hbegin2, Hcmds. simpl.
  unfold run_command, Read, Execute, Run, Migrate.
  by destruct Hty as [->|[->|[->| ->]]].
Qed.

(** *** An INITIALIZE that is rolled back *)





End StoreAnswers.

Section StoreAnswerRuns.
Import ledger store_view examples samples.

Lemma initialised_store_is_open_witness :
  consistent initialised
  ∧ consistent
      (RunTransactions (journal_engine [])
         [(all_fine, transaction 3 2 [cmd CLOSE ""]);
          (all_fine, transaction 3 2 [cmd INITIALIZE ""; cmd EXECUTE "A"])]
         initialised).
Proof.
  assert (consistent initialised) as H by (intros _; split; reflexivity).
  split; [exact H|].
  exact (initialised_store_is_open (journal_engine []) _ initialised H).
Defined.


Lemma INITIALIZE_answers_migrated_version_witness :
  answered_version
    (RunTransaction (journal_engine []) all_fine
       (transaction 9 9 [cmd INITIALIZE ""])
       (RunTransaction (journal_engine []) all_fine
          (transaction 5 4 [cmd MIGRATE ""]) initialised).1.2).1.1
  = Some 5.
Proof.
  destruct (INITIALIZE_answers_migrated_version (journal_engine [])
              all_fine all_fine
              (transaction 5 4 [cmd MIGRATE ""])
              (transaction 9 9 [cmd INITIALIZE ""])
              (cmd MIGRATE "") (cmd INITIALIZE "") initialised
              eq_refl eq_refl eq_refl eq_refl eq_refl eq_refl
              eq_refl eq_refl eq_refl eq_refl eq_refl)
    as (_ & _ & H & _).
  exact H.
Defined.

Lemma Read_records_witness :
  ∃ records,
    (Read two_rows_engine select_two DBCommandResponse_New initialised).1.1.2
    = set_result (result_records records) DBCommandResponse_New
    ∧ length records = 2%nat
    ∧ fields <$> records !! 1%nat
      = Some [STRING_VALUE "name"; INT_VALUE 21].
Proof.
  destruct (Read_records two_rows_engine select_two DBCommandResponse_New
              initialised eq_refl)
    as (records & _ & Hresult & Hlength & Hrows).
  exists records. split; [exact Hresult|]. split; [exact Hlength|].
  destruct (Hrows 1%nat (sample_row 20) eq_refl)
    as (record & -> & Hfields & Hcolumns).
  simpl. f_equal.
  destruct record as [[|a [|b [|c more]]]]; simpl in Hfields; try done.
  pose proof (Hcolumns 0%nat) as H0. pose proof (Hcolumns 1%nat) as H1.
  simpl in H0, H1. by simplify_eq.
Defined.

Lemma transaction_in_two_parts_witness :
  (RunTransaction (journal_engine []) all_fine
     (transaction 3 2 [cmd INITIALIZE ""; cmd EXECUTE "A"]) fresh).1.2
  = (RunTransaction (journal_engine []) all_fine
       (transaction 3 2 [cmd EXECUTE "A"])
       (RunTransaction (journal_engine []) all_fine
          (transaction 3 2 [cmd INITIALIZE ""]) fresh).1.2).1.2.
Proof.
  destruct (transaction_in_two_parts (journal_engine []) all_fine
              (transaction 3 2 [cmd INITIALIZE ""; cmd EXECUTE "A"])
              [cmd INITIALIZE ""] [cmd EXECUTE "A"] fresh
              eq_refl eq_refl eq_refl eq_refl eq_refl eq_refl)
    as (_ & H).
  exact H.
Defined.

Lemma commands_after_close_witness :
  status
    (RunTransaction (journal_engine []) all_fine
       (transaction 3 2 [cmd EXECUTE "A"])
       (RunTransaction (journal_engine []) all_fine
          (transaction 3 2 [cmd CLOSE ""]) initialised).1.2).1.1
  = INITIALIZATION_ERROR.
Proof.
  destruct (commands_after_close (journal_engine []) all_fine
              (transaction 3 2 [cmd CLOSE ""]) all_fine
              (transaction 3 2 [cmd EXECUTE "A"])
              (cmd EXECUTE "A") [] initialised
              eq_refl eq_refl eq_refl (or_intror (or_introl eq_refl))
              eq_refl eq_refl)
    as (H & _).
  exact H.
Defined.


End StoreAnswerRuns.

(* ===================================================================== *)
(** ** Further properties of the state migration *)
(* ===================================================================== *)

Section MigrationAnswers.
Import state.
Context {Table : Type}.
Variable ledger_ : Collaborators Table.

(** X10. [ParseWalletJSON] gives a wallet exactly when the text reads as a
    dictionary whose payment_id and recovery_seed entries are strings and
    the seed is valid base64; the wallet then holds the payment id as it
    stands and the decoded seed.  An entry of another type counts as
    missing. *)
Theorem ParseWalletJSON_Some data (wallet : RewardsWallet) :
  (ParseWalletJSON ledger_ data = Some wallet
   ↔ ∃ entries seed,
       JSONReader_Read ledger_ data = Some (DICTIONARY entries)
       ∧ find_entry "payment_id" entries = Some (STRING (payment_id wallet))
       ∧ find_entry "recovery_seed" entries = Some (STRING seed)
       ∧ Base64Decode ledger_ seed = Some (recovery_seed wallet))
  ∧ (∀ entries other,
       JSONReader_Read ledger_ data = Some (DICTIONARY entries) →
       (find_entry "payment_id" entries = Some other
        ∨ find_entry "recovery_seed" entries = Some other) →
       (∀ s, other ≠ STRING s) →
       ParseWalletJSON ledger_ data = None).
Proof.
  unfold ParseWalletJSON, FindStringKey. split.
  - split.
    + intros H. destruct (JSONReader_Read ledger_ data) as [root|]; [|done].
      destruct root as [| | | | |?|entries]; simpl in H; try done.
      exists entries.
      destruct (find_entry "payment_id" entries) as [[| | | |id| |]|];
        try done.
      destruct (find_entry "recovery_seed" entries) as [[| | | |seed| |]|];
        try done.
      exists seed.
      destruct (Base64Decode ledger_ seed) eqn:Hseed; [|done].
      destruct wallet. by simplify_eq/=.
    + intros (entries & seed & -> & Hid & Hseed & Hdec). simpl.
      rewrite Hid, Hseed, Hdec. by destruct wallet.
  - intros entries other -> Hother Hnot. simpl.
    destruct Hother as [Hother|Hother]; rewrite Hother.
    + destruct other; try done. by destruct (Hnot s).
    + destruct (find_entry "payment_id" entries) as [[| | | |id| |]|];
        try done.
      destruct other; try done. by destruct (Hnot s).
Qed.

(** X11. When the legacy value is not empty, decrypts and parses, [Migrate]
    hands the payment id and the decoded seed to [SaveNew] once, leaves the
    wallet table as [SaveNew] leaves it, answers LEDGER_OK once and logs
    the message "Error migrating Rewards wallet to database", also when
    [SaveNew] reports success. *)
Theorem Migrate_saves_parsed_wallet pref_data json (wallet : RewardsWallet)
    (table : Table) :
  pref_data ≠ "" →
  Base64DecryptString ledger_ pref_data = Some json →
  ParseWalletJSON ledger_ json = Some wallet →
  Migrate ledger_ pref_data table
  = {| callback := [LEDGER_OK];
       wallet_table :=
         (SaveNew ledger_ (payment_id wallet) (recovery_seed wallet) table).2;
       logged := ["Error migrating Rewards wallet to database"] |}.
Proof.
  intros Hne Hdec Hparse. unfold Migrate, on_saved.
  rewrite decide_False by done. rewrite Hdec, Hparse.
  by destruct (SaveNew ledger_ (payment_id wallet) (recovery_seed wallet) table).
Qed.

End MigrationAnswers.

(* ===================================================================== *)
(** ** Properties of the wallet lookup endpoint *)
(* ===================================================================== *)

Section GetWalletAnswers.
Import state promotion.
Variable JSONReader_Read : string -> option Value.

Lemma linking_path :
  PathSplitter "depositAccountProvider.linkingId"
  = ["depositAccountProvider"; "linkingId"].
Proof. reflexivity. Qed.

(** The linking id is the string member linkingId of the dictionary member
    depositAccountProvider. *)
Lemma FindStringPath_linking_id (v : Value) id :
  FindStringPath "depositAccountProvider.linkingId" v = Some id
  ↔ ∃ outer inner,
      v = DICTIONARY outer
      ∧ find_entry "depositAccountProvider" outer = Some (DICTIONARY inner)
      ∧ find_entry "linkingId" inner = Some (STRING id).
Proof.
  unfold FindStringPath, FindPath. rewrite linking_path. simpl. split.
  - intros H. destruct v as [| | | | |?|outer]; try done.
    destruct (find_entry "depositAccountProvider" outer)
      as [[| | | | |?|inner]|] eqn:Houter; try done.
    destruct (find_entry "linkingId" inner) as [[| | | |s| |]|] eqn:Hinner;
      try done.
    simplify_eq. by exists outer, inner.
  - intros (outer & inner & -> & -> & ->). done.
Qed.

Lemma CheckStatusCode_ok code :
  (CheckStatusCode code = LEDGER_OK ↔ code = 200)
  ∧ (CheckStatusCode code ≠ LEDGER_OK → CheckStatusCode code = LEDGER_ERROR).
Proof.
  unfold CheckStatusCode, HTTP_BAD_REQUEST, HTTP_NOT_FOUND, HTTP_OK.
  repeat case_decide; intuition (try done; lia).
Qed.

(** X12. [OnRequest] reports LEDGER_OK exactly when the HTTP status is 200
    and the body reads as a dictionary whose member depositAccountProvider
    is a dictionary with a string member linkingId; the wallet is then
    reported as linked exactly when that string is not empty.  In every
    other case it reports LEDGER_ERROR with linked false: a wallet is never
    reported as linked together with an error. *)
Theorem OnRequest_answers (response : UrlResponse) :
  ((OnRequest JSONReader_Read response).1 = LEDGER_OK
   ↔ status_code response = 200
     ∧ ∃ outer inner id,
         JSONReader_Read (body response) = Some (DICTIONARY outer)
         ∧ find_entry "depositAccountProvider" outer = Some (DICTIONARY inner)
         ∧ find_entry "linkingId" inner = Some (STRING id))
  ∧ (∀ outer inner id,
       status_code response = 200 →
       JSONReader_Read (body response) = Some (DICTIONARY outer) →
       find_entry "depositAccountProvider" outer = Some (DICTIONARY inner) →
       find_entry "linkingId" inner = Some (STRING id) →
       OnRequest JSONReader_Read response
       = (LEDGER_OK, negb (bool_decide (id = ""))))
  ∧ ((OnRequest JSONReader_Read response).1 ≠ LEDGER_OK →
     OnRequest JSONReader_Read response = (LEDGER_ERROR, false))
  ∧ ((OnRequest JSONReader_Read response).2 = true →
     (OnRequest JSONReader_Read response).1 = LEDGER_OK).
Proof.
  assert (∀ outer inner id,
            status_code response = 200 →
            JSONReader_Read (body response) = Some (DICTIONARY outer) →
            find_entry "depositAccountProvider" outer
            = Some (DICTIONARY inner) →
            find_entry "linkingId" inner = Some (STRING id) →
            OnRequest JSONReader_Read response
            = (LEDGER_OK, negb (bool_decide (id = "")))) as Hok.
  { intros outer inner id Hcode Hjson Houter Hinner.
    unfold OnRequest, ParseBody.
    destruct (CheckStatusCode_ok (status_code response)) as [[_ ->] _];
      [|done].
    simpl. rewrite Hjson. simpl.
    assert (FindStringPath "depositAccountProvider.linkingId"
              (DICTIONARY outer) = Some id) as ->; [|done].
    apply FindStringPath_linking_id. by exists outer, inner. }
  assert ((OnRequest JSONReader_Read response).1 = LEDGER_OK
          ∨ OnRequest JSONReader_Read response = (LEDGER_ERROR, false))
    as Hcases.
  { unfold OnRequest, ParseBody.
    destruct (CheckStatusCode_ok (status_code response)) as [_ Herr].
    destruct (decide (CheckStatusCode (status_code response) = LEDGER_OK))
      as [->|Hne].
    - simpl. destruct (JSONReader_Read (body response)); [|by right].
      destruct (negb (is_dict v)); [by right|].
      destruct (FindStringPath _ v); [by left|by right].
    - rewrite (Herr Hne). by right. }
  split; [|split; [done|split]].
  - split.
    + intros H. unfold OnRequest, ParseBody in H.
      destruct (CheckStatusCode_ok (status_code response)) as [Hcode Herr].
      destruct (decide (CheckStatusCode (status_code response) = LEDGER_OK))
        as [Hc|Hne].
      * split; [by apply Hcode|]. rewrite Hc in H. simpl in H.
        destruct (JSONReader_Read (body response)) as [v|]; [|done].
        destruct (negb (is_dict v)); [done|].
        destruct (FindStringPath "depositAccountProvider.linkingId" v)
          as [id|] eqn:Hpath; [|done].
        apply FindStringPath_linking_id in Hpath
          as (outer & inner & -> & ? & ?).
        by exists outer, inner, id.
      * rewrite (Herr Hne) in H. done.
    + intros (Hcode & outer & inner & id & Hjson & Houter & Hinner).
      by rewrite (Hok outer inner id).
  - intros Hne. by destruct Hcases.
  - intros Hlinked. destruct Hcases as [?|Herr]; [done|].
    by rewrite Herr in Hlinked.
Qed.

End GetWalletAnswers.

Section MigrationAnswerRuns.
Import state examples.

Lemma Migrate_saves_parsed_wallet_witness :
  Migrate (migration_collaborators false) "{wallet}" []
  = {| callback := [LEDGER_OK]; wallet_table := [];
       logged := ["Error migrating Rewards wallet to database"] |}.
Proof.
  exact (Migrate_saves_parsed_wallet (migration_collaborators false)
           "{wallet}" "{wallet}"
           {| payment_id := "fa5dea51-6af4-44ca-801b-07b6df3dcfe4";
              recovery_seed := "seed" |}
           [] ltac:(discriminate) eq_refl eq_refl).
Defined.

End MigrationAnswerRuns.

(* ===================================================================== *)
(** ** Properties of the hardware wallet connection form *)
(* ===================================================================== *)

Section ConnectFormFacts.
Import hardware_wallet_connect.
Context {HardwareWalletAccount : Type}.
Variable getLocale : string -> string.
Variables kLedgerHardwareVendor kTrezorHardwareVendor : string.

Implicit Type s cur : State HardwareWalletAccount.

(** X13. [getErrorMessage] throws exactly on undefined and null.  It gives
    a user hint only for the status codes 27904 and 26368, and then passes
    the error's message on whatever it is; for the status code 27404 it
    gives the hardware info text whatever the message; otherwise it gives
    the error's message when the error and the message are truthy and the
    unknown internal error text when not. *)
Theorem getErrorMessage_cases (e : JsError) :
  (getErrorMessage getLocale e = None ↔ e = nullish)
  ∧ (∀ self_truthy statusCode message,
       e = js_error self_truthy statusCode message →
       ∃ m, getErrorMessage getLocale e = Some m
         ∧ (statusCode = js_number 27404 →
            m = {| error :=
                     js_string (getLocale "braveWalletConnectHardwareInfo2");
                   userHint := "" |})
         ∧ (statusCode = js_number 27904 ∨ statusCode = js_number 26368 →
            m = {| error := message;
                   userHint :=
                     getLocale
                       "braveWalletConnectHardwareWrongApplicationUserHint" |})
         ∧ (statusCode ≠ js_number 27404 → statusCode ≠ js_number 27904 →
            statusCode ≠ js_number 26368 →
            m = {| error :=
                     if self_truthy && truthy message then message
                     else js_string
                            (getLocale "braveWalletUnknownInternalError");
                   userHint := "" |})).
Proof.
  split.
  - destruct e; simpl; [done|]. repeat case_match; done.
  - intros self_truthy statusCode message ->. simpl.
    destruct statusCode as [| |k| |]; simpl.
    3: destruct (Z.eqb_spec k 0), (Z.eqb_spec k 27404),
         (Z.eqb_spec k 27904), (Z.eqb_spec k 26368); subst; try lia; simpl.
    all: rewrite ?andb_false_r.
    all: destruct self_truthy, (truthy message); simpl; eexists;
      (split; [done|]); repeat split; intros; simplify_eq; try done;
      by destruct_or!; simplify_eq.
Qed.

(** X14. Loading batch after batch, each click made once the batch before
    has arrived: the accounts held at the end are those held at the start
    followed by the batches in order; one request is sent per batch; the
    window a request asks for starts at the number of accounts held when it
    is sent, whatever the sizes of the batches that arrived, and ends
    [derivationBatch] later; every request names the vendor and the scheme
    selected at the start. *)
Theorem load_batches_windows (batches : list (list HardwareWalletAccount)) :
  ∀ s,
    accounts (load_batches s batches).1 = accounts s ++ concat batches
    ∧ length (load_batches s batches).2 = length batches
    ∧ ∀ k opts,
        (load_batches s batches).2 !! k = Some opts →
        startIndex opts
        = (length (accounts s) + length (concat (take k batches)))%nat
        ∧ stopIndex opts = (startIndex opts + 4)%nat
        ∧ hardware opts = selectedHardwareWallet s
        ∧ scheme opts = selectedDerivationScheme s.
Proof.
  induction batches as [|batch rest IH]; intros s.
  - simpl. rewrite app_nil_r. repeat split; done.
  - simpl.
    destruct (load_batches
                (connect_resolved s batch (connect_started s)) rest)
      as [s2 sent] eqn:Hrest.
    destruct (IH (connect_resolved s batch (connect_started s)))
      as (Hacc & Hlen & Hsent).
    rewrite Hrest in Hacc, Hlen, Hsent. simpl in *.
    split; [by rewrite Hacc, app_assoc|].
    split; [by rewrite Hlen|].
    intros [|k] opts Hk; simpl in Hk.
    + simplify_eq. simpl. unfold derivationBatch. repeat split; lia.
    + destruct (Hsent k opts Hk) as (Hstart & Hstop & Hhw & Hscheme).
      rewrite Hstart. repeat split; try done.
      * simpl. rewrite !length_app. lia.
      * rewrite Hstop, Hstart. done.
Qed.

(** X15. Two loads started before either has arrived ask for the same
    window, and whichever arrives last replaces the accounts list by the
    accounts of its own render followed by its own batch: the batch that
    arrived first is dropped, whatever happened to the state in between. *)
Theorem overlapping_loads s cur hardware first second :
  connect_opts (connect_started s) hardware = connect_opts s hardware
  ∧ accounts
      (connect_resolved (connect_started s) second
         (connect_resolved s first cur))
    = accounts s ++ second
  ∧ accounts
      (connect_resolved s first
         (connect_resolved (connect_started s) second cur))
    = accounts s ++ first.
Proof. done. Qed.

(** X16. A connection attempt that is rejected.  With undefined or null as
    the reason the handler stops before its first setter: the state stays
    as it was, so a form that shows the connecting indicator keeps showing
    it and shows no new error.  With any other reason the handler runs to
    its end: the error is recorded, the form is shown again with that
    error and the connect button, and the accounts are left alone. *)
Theorem rejected_connection (e : JsError) cur :
  (e = nullish →
   connect_rejected getLocale e cur = (cur, false))
  ∧ (e ≠ nullish →
     ∃ m, getErrorMessage getLocale e = Some m
       ∧ (connect_rejected getLocale e cur).2 = true
       ∧ accounts (connect_rejected getLocale e cur).1 = accounts cur
       ∧ render kLedgerHardwareVendor kTrezorHardwareVendor (connect_rejected getLocale e cur).1
         = ConnectForm
             (bool_decide (selectedHardwareWallet cur = kLedgerHardwareVendor))
             (bool_decide (selectedHardwareWallet cur = kTrezorHardwareVendor))
             (Some m) false).
Proof.
  split.
  - intros ->. done.
  - intros Hne. unfold connect_rejected.
    destruct (getErrorMessage getLocale e)
      as [m|] eqn:Hm.
    + by exists m.
    + destruct e; [done|]. simpl in Hm. repeat case_match; done.
Qed.

(** X17. A change of derivation scheme made from the accounts list that is
    rejected, for whatever reason: the accounts list stays on screen,
    empty and under the new scheme, and the request asked for the first
    [derivationBatch] accounts of the vendor selected.  The error is
    recorded unless the reason is undefined or null, but the list does not
    show it. *)
Theorem rejected_scheme_change (e : JsError) s new_scheme :
  isConnected s = true →
  scheme_opts s new_scheme
  = {| hardware := selectedHardwareWallet s; startIndex := 0;
       stopIndex := 4; scheme := new_scheme |}
  ∧ render kLedgerHardwareVendor kTrezorHardwareVendor (scheme_rejected getLocale e (scheme_started new_scheme s)).1
    = HardwareWalletAccountsList (selectedHardwareWallet s) []
        (selectedDerivationPaths s) new_scheme
  ∧ connectionError (scheme_rejected getLocale e (scheme_started new_scheme s)).1
    = match getErrorMessage getLocale e with
      | Some m => Some m
      | None => connectionError s
      end.
Proof.
  intros Hconnected. unfold scheme_rejected.
  split; [done|].
  destruct (getErrorMessage getLocale e);
    unfold render; simpl; rewrite Hconnected; done.
Qed.

End ConnectFormFacts.

Section ConnectFormRuns.
Import hardware_wallet_connect samples.

Lemma rejected_scheme_change_witness :
  render "Ledger" "Trezor"
    (scheme_rejected (λ key, key) nullish
       (scheme_started "legacy" connected_form)).1
  = HardwareWalletAccountsList "Ledger" [] [] "legacy".
Proof.
  destruct (rejected_scheme_change (λ key, key) "Ledger" "Trezor" nullish
              connected_form "legacy" eq_refl)
    as (_ & H & _).
  exact H.
Defined.

End ConnectFormRuns.
